(** * Keyset handle: envelope read/write and public-keyset derivation

    A shallow embedding of [cc/core/keyset_handle.cc].  The file talks to
    five collaborators it does not implement: the master-key AEAD, the
    keyset reader, the keyset writer, the type registry and the protobuf
    codec of [Keyset].  The first four are objects with fallible, possibly
    stateful methods, so the code is written against a small free monad
    whose operations are the collaborator calls; an interpreter threads an
    arbitrary world through an arbitrary handler and records every call
    with its reply.  The codec is a pure interface (a type class). *)

From Stdlib Require Import String Ascii List ZArith Bool Lia.
Import ListNotations.
Local Open Scope string_scope.

(** ** Status and StatusOr *)

(** The canonical error space of [util::error::Code].  This file names only
    [INVALID_ARGUMENT]; collaborators may answer with any code. *)
Inductive Code : Type :=
| OK | CANCELLED | UNKNOWN | INVALID_ARGUMENT | DEADLINE_EXCEEDED
| NOT_FOUND | ALREADY_EXISTS | PERMISSION_DENIED | RESOURCE_EXHAUSTED
| FAILED_PRECONDITION | ABORTED | OUT_OF_RANGE | UNIMPLEMENTED
| INTERNAL | UNAVAILABLE | DATA_LOSS | UNAUTHENTICATED.

Definition Code_eqb (a b : Code) : bool :=
  match a, b with
  | OK, OK | CANCELLED, CANCELLED | UNKNOWN, UNKNOWN
  | INVALID_ARGUMENT, INVALID_ARGUMENT
  | DEADLINE_EXCEEDED, DEADLINE_EXCEEDED | NOT_FOUND, NOT_FOUND
  | ALREADY_EXISTS, ALREADY_EXISTS | PERMISSION_DENIED, PERMISSION_DENIED
  | RESOURCE_EXHAUSTED, RESOURCE_EXHAUSTED
  | FAILED_PRECONDITION, FAILED_PRECONDITION | ABORTED, ABORTED
  | OUT_OF_RANGE, OUT_OF_RANGE | UNIMPLEMENTED, UNIMPLEMENTED
  | INTERNAL, INTERNAL | UNAVAILABLE, UNAVAILABLE | DATA_LOSS, DATA_LOSS
  | UNAUTHENTICATED, UNAUTHENTICATED => true
  | _, _ => false
  end.

(** [util::Status]: a code and a message. *)
Record Status : Type := mkStatus {
  error_code : Code;
  error_message : string
}.

Definition Status_ok (s : Status) : bool := Code_eqb (error_code s) OK.

(** [util::StatusOr<T>]: either a failure status or a value. *)
Inductive StatusOr (T : Type) : Type :=
| Failed (status : Status)
| Value (ValueOrDie : T).

Arguments Failed {T} status.
Arguments Value {T} ValueOrDie.

Definition StatusOr_ok {T} (r : StatusOr T) : bool :=
  match r with Failed _ => false | Value _ => true end.

(** [std::string::c_str()] read back through a [%s] directive: the bytes
    up to, and without, the first NUL. *)
Fixpoint c_str (s : string) : string :=
  match s with
  | EmptyString => EmptyString
  | String c rest =>
      if Ascii.eqb c zero then EmptyString else String c (c_str rest)
  end.

(** The formatted text of a format holding one [%s] directive. *)
Fixpoint printf_s (format arg : string) : string :=
  match format with
  | EmptyString => EmptyString
  | String c rest =>
      match rest with
      | String d rest' =>
          if (Ascii.eqb c "%" && Ascii.eqb d "s")%bool
          then arg ++ rest'
          else String c (printf_s rest arg)
      | EmptyString => String c EmptyString
      end
  end.

(** [ToStatusF(code, format, arg)] of [tink/util/errors.h], which is not
    part of this translation unit: the status with the given code whose
    message is the printf-formatted text.  Every use below has a single
    [%s] fed from a [c_str()]. *)
Definition ToStatusF (code : Code) (format arg : string) : Status :=
  mkStatus code (printf_s format (c_str arg)).

(** ** Protobuf records *)

(** Modelled from the spec: [proto/tink.pb.h] is generated code that is not
    among the sources; the material classifications are the ones the data
    model lists (symmetric, asymmetric-private, asymmetric-public,
    unknown). *)
Inductive KeyMaterialType : Type :=
| UNKNOWN_KEYMATERIAL | SYMMETRIC | ASYMMETRIC_PRIVATE | ASYMMETRIC_PUBLIC.

Definition KeyMaterialType_eqb (a b : KeyMaterialType) : bool :=
  match a, b with
  | UNKNOWN_KEYMATERIAL, UNKNOWN_KEYMATERIAL | SYMMETRIC, SYMMETRIC
  | ASYMMETRIC_PRIVATE, ASYMMETRIC_PRIVATE
  | ASYMMETRIC_PUBLIC, ASYMMETRIC_PUBLIC => true
  | _, _ => false
  end.

(** [KeyData]: type identifier, opaque key-material bytes, classification. *)
Record KeyData : Type := mkKeyData {
  type_url : string;
  value : string;
  key_material_type : KeyMaterialType
}.

(** [Keyset::Key].  The status and the output-prefix type are enums this
    file never inspects; they are kept as their numeric wire values. *)
Record Key : Type := mkKey {
  key_data : KeyData;
  status : Z;
  key_id : Z;
  output_prefix_type : Z
}.

Record Keyset : Type := mkKeyset {
  primary_key_id : Z;
  key : list Key
}.

Record EncryptedKeyset : Type := mkEncryptedKeyset {
  encrypted_keyset : string
}.

(** Default-constructed messages. *)
Definition new_KeyData : KeyData := mkKeyData "" "" UNKNOWN_KEYMATERIAL.
Definition new_Key : Key := mkKey new_KeyData 0 0 0.
Definition new_Keyset : Keyset := mkKeyset 0 [].
Definition new_EncryptedKeyset : EncryptedKeyset := mkEncryptedKeyset "".

(** [a->Swap(&b)] exchanges the contents of two messages; the pair is
    (new [a], new [b]). *)
Definition Swap {M : Type} (a b : M) : M * M := (b, a).

Definition set_encrypted_keyset (e : EncryptedKeyset) (c : string)
  : EncryptedKeyset := mkEncryptedKeyset c.

Definition set_primary_key_id (k : Keyset) (id : Z) : Keyset :=
  mkKeyset id (key k).

Definition with_key_data (k : Key) (d : KeyData) : Key :=
  mkKey d (status k) (key_id k) (output_prefix_type k).

(** The wire codec of [Keyset] ([SerializeAsString], [ParseFromString]),
    supplied by the protobuf runtime. *)
Class KeysetCodec : Type := {
  SerializeAsString : Keyset -> string;
  ParseFromString : string -> option Keyset
}.

(** ** The handle *)

Record KeysetHandle : Type := new_KeysetHandle {
  keyset_ : Keyset
}.

(** ** Collaborator calls *)

Section Core.

Context {Aead KeysetReader KeysetWriter : Type}.

(** One constructor per collaborator method, indexed by its reply type. *)
Inductive call : Type -> Type :=
| Aead_Encrypt (master_key_aead : Aead) (plaintext associated_data : string)
  : call (StatusOr string)
| Aead_Decrypt (master_key_aead : Aead) (ciphertext associated_data : string)
  : call (StatusOr string)
| ReadEncrypted (reader : KeysetReader) : call (StatusOr EncryptedKeyset)
| Writer_Write (writer : KeysetWriter) (enc_keyset : EncryptedKeyset)
  : call Status
| Registry_GetPublicKeyData (type_url_ value_ : string)
  : call (StatusOr KeyData).

(** Programs over the collaborator calls. *)
Inductive prog (A : Type) : Type :=
| Ret (a : A)
| Do (X : Type) (c : call X) (k : X -> prog A).

Arguments Ret {A} a.
Arguments Do {A X} c k.

Fixpoint bind {A B} (p : prog A) (f : A -> prog B) : prog B :=
  match p with
  | Ret a => f a
  | Do c k => Do c (fun x => bind (k x) f)
  end.

Definition perform {X} (c : call X) : prog X := Do c (fun x => Ret x).

(** A member function also carries its receiver: it gets the handle it is
    called on and hands it back as the call leaves it. *)
Definition method (A : Type) : Type := KeysetHandle -> prog (A * KeysetHandle).

Definition mret {A} (a : A) : method A := fun this => Ret (a, this).

Definition mbind {A B} (m : method A) (f : A -> method B) : method B :=
  fun this => bind (m this) (fun r => f (fst r) (snd r)).

Definition lift {A} (p : prog A) : method A :=
  fun this => bind p (fun a => Ret (a, this)).

(** [const Keyset& KeysetHandle::get_keyset() const] *)
Definition get_keyset : method Keyset := fun this => Ret (keyset_ this, this).

(** ** Interpretation *)

(** A collaborator call together with the reply it got. *)
Inductive invocation : Type :=
| Invoke (X : Type) (c : call X) (reply : X).

Arguments Invoke {X} c reply.

Record outcome (W A : Type) : Type := mkOutcome {
  result : A;
  world : W;
  calls : list invocation
}.

Arguments mkOutcome {W A} result world calls.
Arguments result {W A} o.
Arguments world {W A} o.
Arguments calls {W A} o.

Definition handler (W : Type) : Type := forall X, call X -> W -> X * W.

Fixpoint run {W A} (h : handler W) (p : prog A) (w : W) : outcome W A :=
  match p with
  | Ret a => mkOutcome a w []
  | Do c k =>
      let r := h _ c w in
      let o := run h (k (fst r)) (snd r) in
      mkOutcome (result o) (world o) (Invoke c (fst r) :: calls o)
  end.

End Core.

Arguments Ret {Aead KeysetReader KeysetWriter A} a.
Arguments Do {Aead KeysetReader KeysetWriter A X} c k.
Arguments Invoke {Aead KeysetReader KeysetWriter X} c reply.
Arguments mkOutcome {Aead KeysetReader KeysetWriter W A} result world calls.
Arguments result {Aead KeysetReader KeysetWriter W A} o.
Arguments world {Aead KeysetReader KeysetWriter W A} o.
Arguments calls {Aead KeysetReader KeysetWriter W A} o.

Declare Scope prog_scope.
Delimit Scope prog_scope with prog.
Notation "x <- p ;; q" := (bind p (fun x => q))
  (at level 61, p at next level, right associativity) : prog_scope.

Declare Scope method_scope.
Delimit Scope method_scope with method.
Notation "x <- p ;; q" := (mbind p (fun x => q))
  (at level 61, p at next level, right associativity) : method_scope.

(** ** The translation unit *)

Section KeysetHandleCc.

Context {Aead KeysetReader KeysetWriter : Type}.
Context {codec : KeysetCodec}.

Local Abbreviation prog := (@prog Aead KeysetReader KeysetWriter).
Local Abbreviation method := (@method Aead KeysetReader KeysetWriter).

(** Anonymous-namespace helper [Encrypt]. *)
Definition Encrypt (keyset : Keyset) (master_key_aead : Aead)
  : prog (StatusOr EncryptedKeyset) :=
  (encrypt_result <-
     perform (Aead_Encrypt master_key_aead (SerializeAsString keyset) "") ;;
   match encrypt_result with
   | Failed s => Ret (Failed s)
   | Value ciphertext =>
       let enc_keyset := new_EncryptedKeyset in
       let enc_keyset := set_encrypted_keyset enc_keyset ciphertext in
       Ret (Value enc_keyset)
   end)%prog.

(** Anonymous-namespace helper [Decrypt]. *)
Definition Decrypt (enc_keyset : EncryptedKeyset) (master_key_aead : Aead)
  : prog (StatusOr Keyset) :=
  (decrypt_result <-
     perform (Aead_Decrypt master_key_aead (encrypted_keyset enc_keyset) "") ;;
   match decrypt_result with
   | Failed s => Ret (Failed s)
   | Value plaintext =>
       match ParseFromString plaintext with
       | None =>
           Ret (Failed (mkStatus INVALID_ARGUMENT
                  "Could not parse the decrypted data as a Keyset-proto."))
       | Some keyset => Ret (Value keyset)
       end
   end)%prog.

(** [static KeysetHandle::Read(reader, master_key_aead)] *)
Definition Read (reader : KeysetReader) (master_key_aead : Aead)
  : prog (StatusOr KeysetHandle) :=
  (enc_keyset_result <- perform (ReadEncrypted reader) ;;
   match enc_keyset_result with
   | Failed s =>
       Ret (Failed (ToStatusF INVALID_ARGUMENT
              "Error reading encrypted keyset data: %s" (error_message s)))
   | Value enc_keyset =>
       keyset_result <- Decrypt enc_keyset master_key_aead ;;
       match keyset_result with
       | Failed s =>
           Ret (Failed (ToStatusF INVALID_ARGUMENT
                  "Error decrypting encrypted keyset: %s" (error_message s)))
       | Value keyset => Ret (Value (new_KeysetHandle keyset))
       end
   end)%prog.

(** [KeysetHandle::Write(writer, master_key_aead)]; a null [writer] is
    [None]. *)
Definition Write (writer : option KeysetWriter) (master_key_aead : Aead)
  : method Status :=
  match writer with
  | None => mret (mkStatus INVALID_ARGUMENT "Writer must be non-null")
  | Some writer =>
      (keyset <- get_keyset ;;
       encrypt_result <- lift (Encrypt keyset master_key_aead) ;;
       match encrypt_result with
       | Failed s =>
           mret (ToStatusF INVALID_ARGUMENT
                   "Encryption of the keyset failed: %s" (error_message s))
       | Value enc_keyset => lift (perform (Writer_Write writer enc_keyset))
       end)%method
  end.

(** [ExtractPublicKey(key)]: the copy of [key] whose key data has been
    exchanged with the registry's answer. *)
Definition ExtractPublicKey (k : Key) : prog (StatusOr Key) :=
  if negb (KeyMaterialType_eqb (key_material_type (key_data k))
             ASYMMETRIC_PRIVATE)
  then Ret (Failed (mkStatus INVALID_ARGUMENT
              "Key material is not of type KeyData::ASYMMETRIC_PRIVATE"))
  else
    (key_data_result <-
       perform (Registry_GetPublicKeyData (type_url (key_data k))
                  (value (key_data k))) ;;
     match key_data_result with
     | Failed s => Ret (Failed s)
     | Value registry_key_data =>
         let public_key := k in
         let swapped := Swap (key_data public_key) registry_key_data in
         let public_key := with_key_data public_key (fst swapped) in
         Ret (Value public_key)
     end)%prog.

(** [public_keyset->add_key()->Swap(&k)]: a default entry is appended and
    exchanges contents with [k]. *)
Definition add_key_Swap (public_keyset : Keyset) (k : Key) : Keyset * Key :=
  let swapped := Swap new_Key k in
  (mkKeyset (primary_key_id public_keyset)
     (key public_keyset ++ [fst swapped]),
   snd swapped).

(** The range-for of [GetPublicKeysetHandle] over the remaining entries,
    [public_keyset] being the keyset built so far.  A failing entry
    returns from the whole function. *)
Fixpoint for_each_key (keys : list Key) (public_keyset : Keyset)
  : prog (StatusOr Keyset) :=
  match keys with
  | [] => Ret (Value public_keyset)
  | k :: rest =>
      (public_key_result <- ExtractPublicKey k ;;
       match public_key_result with
       | Failed s => Ret (Failed s)
       | Value public_key =>
           for_each_key rest (fst (add_key_Swap public_keyset public_key))
       end)%prog
  end.

(** [KeysetHandle::GetPublicKeysetHandle()] *)
Definition GetPublicKeysetHandle : method (StatusOr KeysetHandle) :=
  (let public_keyset := new_Keyset in
   keyset <- get_keyset ;;
   loop_result <- lift (for_each_key (key keyset) public_keyset) ;;
   match loop_result with
   | Failed s => mret (Failed s)
   | Value public_keyset =>
       keyset <- get_keyset ;;
       let public_keyset :=
         set_primary_key_id public_keyset (primary_key_id keyset) in
       mret (Value (new_KeysetHandle public_keyset))
   end)%method.

End KeysetHandleCc.

(** ** Observations on a run *)

Section Observations.

Context {Aead KeysetReader KeysetWriter : Type}.

Local Abbreviation invocation := (@invocation Aead KeysetReader KeysetWriter).

(** The call went to the AEAD's [Encrypt]. *)
Definition is_Aead_Encrypt (i : invocation) : bool :=
  match i with
  | Invoke c _ => match c with Aead_Encrypt _ _ _ => true | _ => false end
  end.

(** The call went to the AEAD, either direction. *)
Definition is_Aead_call (i : invocation) : bool :=
  match i with
  | Invoke c _ =>
      match c with
      | Aead_Encrypt _ _ _ | Aead_Decrypt _ _ _ => true
      | _ => false
      end
  end.

(** The call went to a writer's [Write]. *)
Definition is_Writer_Write (i : invocation) : bool :=
  match i with
  | Invoke c _ => match c with Writer_Write _ _ => true | _ => false end
  end.

(** An AEAD call carries the empty associated data; any other call
    qualifies. *)
Definition empty_associated_data (i : invocation) : bool :=
  match i with
  | Invoke c _ =>
      match c with
      | Aead_Encrypt _ _ ad | Aead_Decrypt _ _ ad => String.eqb ad ""
      | _ => true
      end
  end.

(** A registry lookup was answered with key data; any other call
    qualifies. *)
Definition lookup_succeeded (i : invocation) : bool :=
  match i with
  | Invoke c reply =>
      match c in call X return X -> bool with
      | Registry_GetPublicKeyData _ _ => fun r => StatusOr_ok r
      | _ => fun _ => true
      end reply
  end.

Definition count_calls (f : invocation -> bool) (t : list invocation) : nat :=
  length (filter f t).

(** The registry lookup issued for entry [k], answered with [d]. *)
Definition lookup_of (k : Key) (d : KeyData) : invocation :=
  Invoke (Registry_GetPublicKeyData (type_url (key_data k))
            (value (key_data k)))
         (Value d).

Definition is_private (k : Key) : bool :=
  KeyMaterialType_eqb (key_material_type (key_data k)) ASYMMETRIC_PRIVATE.

(** The lookups issued for [keys], in order, answered with [answers]. *)
Definition lookups (keys : list Key) (answers : list KeyData)
  : list invocation :=
  map (fun p => lookup_of (fst p) (snd p)) (combine keys answers).

(** The entries [keys] with their key data replaced by [answers]. *)
Definition derived (keys : list Key) (answers : list KeyData) : list Key :=
  map (fun p => with_key_data (fst p) (snd p)) (combine keys answers).

(** A member function that hands its receiver back as it got it, whatever
    the collaborators do. *)
Definition leaves_receiver_unmodified {A}
  (m : @method Aead KeysetReader KeysetWriter A) : Prop :=
  forall W (h : handler W) (w : W) (this : KeysetHandle),
    snd (result (run h (m this) w)) = this.

End Observations.

Definition not_private_message : string :=
  "Key material is not of type KeyData::ASYMMETRIC_PRIVATE".

Definition parse_failure_message : string :=
  "Could not parse the decrypted data as a Keyset-proto.".

(** ** Test doubles

    Fake collaborators in the style of the unit tests: a storage cell
    behind the reader and the writer, and an AEAD, a registry and a codec
    given as plain functions. *)

Record fakes : Type := mkFakes {
  fake_Encrypt : string -> string -> StatusOr string;
  fake_Decrypt : string -> string -> StatusOr string;
  fake_GetPublicKeyData : string -> string -> StatusOr KeyData;
  fake_Write : EncryptedKeyset -> Status
}.

(** The world is what the storage holds: the reader reports it, a writer
    that answers OK replaces it. *)
Definition fake_handler (f : fakes)
  : @handler unit unit unit (StatusOr EncryptedKeyset) :=
  fun X c w =>
    match c in call X return X * StatusOr EncryptedKeyset with
    | Aead_Encrypt _ p ad => (fake_Encrypt f p ad, w)
    | Aead_Decrypt _ ct ad => (fake_Decrypt f ct ad, w)
    | ReadEncrypted _ => (w, w)
    | Writer_Write _ e =>
        (fake_Write f e, if Status_ok (fake_Write f e) then Value e else w)
    | Registry_GetPublicKeyData u v => (fake_GetPublicKeyData f u v, w)
    end.

Definition OkStatus : Status := mkStatus OK "".

Definition empty_storage : StatusOr EncryptedKeyset :=
  Failed (mkStatus NOT_FOUND "nothing stored").

(** A toy AEAD: the ciphertext is the plaintext behind a marker. *)
Definition seal (plaintext ad : string) : StatusOr string :=
  Value ("sealed:" ++ plaintext).

Definition unseal (ciphertext ad : string) : StatusOr string :=
  if String.prefix "sealed:" ciphertext
  then Value (substring 7 (String.length ciphertext - 7) ciphertext)
  else Failed (mkStatus INVALID_ARGUMENT "decryption failed").

Definition private_url : string := "type.example/EcdsaPrivateKey".
Definition public_url : string := "type.example/EcdsaPublicKey".

(** A registry that knows one private key type. *)
Definition derive_public (url val : string) : StatusOr KeyData :=
  if String.eqb url private_url
  then Value (mkKeyData public_url ("pub-of-" ++ val) ASYMMETRIC_PUBLIC)
  else Failed (mkStatus NOT_FOUND "No manager for this key type").

(** A registry whose key manager hands back the key data unchanged. *)
Definition echo_key_data (url val : string) : StatusOr KeyData :=
  Value (mkKeyData url val ASYMMETRIC_PRIVATE).

(** An AEAD whose decryption fails with a message of its own choosing. *)
Definition refuse_with (msg : string) (ciphertext ad : string)
  : StatusOr string :=
  Failed (mkStatus INTERNAL msg).

Definition honest : fakes :=
  mkFakes seal unseal derive_public (fun _ => OkStatus).

(** A toy codec: numbers in unary, strings behind their length. *)
Fixpoint put_nat (n : nat) (rest : string) : string :=
  match n with
  | O => String "0" rest
  | S m => String "1" (put_nat m rest)
  end.

Fixpoint get_nat (s : string) : option (nat * string) :=
  match s with
  | EmptyString => None
  | String c rest =>
      if Ascii.eqb c "0" then Some (O, rest)
      else if Ascii.eqb c "1" then
        match get_nat rest with
        | Some (n, rest') => Some (S n, rest')
        | None => None
        end
      else None
  end.

Definition put_str (s rest : string) : string :=
  put_nat (String.length s) (s ++ rest).

Definition get_str (s : string) : option (string * string) :=
  match get_nat s with
  | Some (n, rest) =>
      if Nat.leb n (String.length rest)
      then Some (substring 0 n rest,
                 substring n (String.length rest - n) rest)
      else None
  | None => None
  end.

Definition put_Z (z : Z) (rest : string) : string := put_nat (Z.to_nat z) rest.

Definition get_Z (s : string) : option (Z * string) :=
  match get_nat s with
  | Some (n, rest) => Some (Z.of_nat n, rest)
  | None => None
  end.

Definition put_material (t : KeyMaterialType) (rest : string) : string :=
  put_nat (match t with
           | UNKNOWN_KEYMATERIAL => 0 | SYMMETRIC => 1
           | ASYMMETRIC_PRIVATE => 2 | ASYMMETRIC_PUBLIC => 3
           end) rest.

Definition get_material (s : string) : option (KeyMaterialType * string) :=
  match get_nat s with
  | Some (0, rest) => Some (UNKNOWN_KEYMATERIAL, rest)
  | Some (1, rest) => Some (SYMMETRIC, rest)
  | Some (2, rest) => Some (ASYMMETRIC_PRIVATE, rest)
  | Some (3, rest) => Some (ASYMMETRIC_PUBLIC, rest)
  | _ => None
  end.

Definition put_Key (k : Key) (rest : string) : string :=
  put_str (type_url (key_data k))
    (put_str (value (key_data k))
       (put_material (key_material_type (key_data k))
          (put_Z (status k)
             (put_Z (key_id k) (put_Z (output_prefix_type k) rest))))).

Definition get_Key (s : string) : option (Key * string) :=
  match get_str s with
  | Some (u, s1) =>
    match get_str s1 with
    | Some (v, s2) =>
      match get_material s2 with
      | Some (t, s3) =>
        match get_Z s3 with
        | Some (st, s4) =>
          match get_Z s4 with
          | Some (id, s5) =>
            match get_Z s5 with
            | Some (pre, s6) => Some (mkKey (mkKeyData u v t) st id pre, s6)
            | None => None
            end
          | None => None
          end
        | None => None
        end
      | None => None
      end
    | None => None
    end
  | None => None
  end.

Fixpoint get_Keys (n : nat) (s : string) : option (list Key * string) :=
  match n with
  | O => Some ([], s)
  | S m =>
      match get_Key s with
      | Some (k, rest) =>
          match get_Keys m rest with
          | Some (ks, rest') => Some (k :: ks, rest')
          | None => None
          end
      | None => None
      end
  end.

Definition toy_serialize (ks : Keyset) : string :=
  put_Z (primary_key_id ks)
    (put_nat (List.length (key ks))
       (fold_right put_Key "" (key ks))).

Definition toy_parse (s : string) : option Keyset :=
  match get_Z s with
  | Some (id, s1) =>
      match get_nat s1 with
      | Some (n, s2) =>
          match get_Keys n s2 with
          | Some (ks, EmptyString) => Some (mkKeyset id ks)
          | _ => None
          end
      | None => None
      end
  | None => None
  end.

Definition toy_codec : KeysetCodec :=
  {| SerializeAsString := toy_serialize; ParseFromString := toy_parse |}.

(** Sample entries and keysets. *)
Definition private_key_7 : Key :=
  mkKey (mkKeyData private_url "secret-7" ASYMMETRIC_PRIVATE) 1 7 1.

Definition private_key_9 : Key :=
  mkKey (mkKeyData private_url "secret-9" ASYMMETRIC_PRIVATE) 2 9 3.

Definition unregistered_key_3 : Key :=
  mkKey (mkKeyData "type.example/Unregistered" "secret-3" ASYMMETRIC_PRIVATE)
        1 3 1.

Definition symmetric_key_5 : Key :=
  mkKey (mkKeyData "type.example/AesGcmKey" "aes-5" SYMMETRIC) 1 5 1.

Definition sample_keyset : Keyset :=
  mkKeyset 9 [private_key_7; private_key_9].

Definition sample_handle : KeysetHandle := new_KeysetHandle sample_keyset.

(** One private entry of key id 7. *)
Definition single_handle : KeysetHandle :=
  new_KeysetHandle (mkKeyset 7 [private_key_7]).

(** A private entry followed by a symmetric one. *)
Definition mixed_handle : KeysetHandle :=
  new_KeysetHandle (mkKeyset 7 [private_key_7; symmetric_key_5]).


(** The honest collaborators, but with the echoing registry. *)
Definition echoing : fakes :=
  mkFakes seal unseal echo_key_data (fun _ => OkStatus).

(** The honest collaborators, but with an AEAD whose decryption failure is
    worded like the parse failure. *)
Definition misreporting : fakes :=
  mkFakes seal (refuse_with parse_failure_message) derive_public
          (fun _ => OkStatus).

(** Storage holding a well-sealed blob that is not a keyset. *)
Definition garbage_storage : StatusOr EncryptedKeyset :=
  Value (mkEncryptedKeyset "sealed:garbage").

(** Storage holding a blob the toy AEAD rejects. *)
Definition tampered_storage : StatusOr EncryptedKeyset :=
  Value (mkEncryptedKeyset "tampered").

(** ** Further observations on a run *)

Section MoreObservations.

Context {Aead KeysetReader KeysetWriter : Type}.

Local Abbreviation invocation := (@invocation Aead KeysetReader KeysetWriter).

(** The call went to a reader's [ReadEncrypted]. *)
Definition is_ReadEncrypted (i : invocation) : bool :=
  match i with
  | Invoke c _ => match c with ReadEncrypted _ => true | _ => false end
  end.

(** The call went to the AEAD's [Decrypt]. *)
Definition is_Aead_Decrypt (i : invocation) : bool :=
  match i with
  | Invoke c _ => match c with Aead_Decrypt _ _ _ => true | _ => false end
  end.

(** The call went to [Registry::GetPublicKeyData]. *)
Definition is_Registry_lookup (i : invocation) : bool :=
  match i with
  | Invoke c _ =>
      match c with Registry_GetPublicKeyData _ _ => true | _ => false end
  end.

End MoreObservations.

(** ** Keyset generation *)

Section Generation.

Context {KeyTemplate KeysetManager W : Type}.

(** Modelled from the spec: [tink/keyset_manager.h] is not among the
    sources.  The key-manager capability is [KeysetManager::New], which
    yields a manager or fails, and the manager's [GetKeysetHandle], from
    which a fully formed handle is obtained; both act on the world. *)
Record KeysetManagerOps : Type := mkKeysetManagerOps {
  KeysetManager_New : KeyTemplate -> W -> StatusOr KeysetManager * W;
  KeysetManager_GetKeysetHandle : KeysetManager -> W -> KeysetHandle * W
}.

(** [static KeysetHandle::GenerateNew(key_template)] *)
Definition GenerateNew (ops : KeysetManagerOps) (key_template : KeyTemplate)
    (w : W) : StatusOr KeysetHandle * W :=
  let manager_result := KeysetManager_New ops key_template w in
  match fst manager_result with
  | Failed s => (Failed s, snd manager_result)
  | Value manager =>
      let handle :=
        KeysetManager_GetKeysetHandle ops manager (snd manager_result) in
      (Value (fst handle), snd handle)
  end.

End Generation.

(** ** More test doubles *)

(** An AEAD that cannot encrypt. *)
Definition refuse_sealing (plaintext ad : string) : StatusOr string :=
  Failed (mkStatus INTERNAL "no key material").

Definition sealing_refused : fakes :=
  mkFakes refuse_sealing unseal derive_public (fun _ => OkStatus).

(** Storage holding the sample keyset, well sealed. *)
Definition sealed_sample_storage : StatusOr EncryptedKeyset :=
  Value (mkEncryptedKeyset ("sealed:" ++ toy_serialize sample_keyset)).

(** What the registry of [honest] makes of the sample keyset. *)
Definition sample_public_keyset : Keyset :=
  mkKeyset 9
    [mkKey (mkKeyData public_url "pub-of-secret-7" ASYMMETRIC_PUBLIC) 1 7 1;
     mkKey (mkKeyData public_url "pub-of-secret-9" ASYMMETRIC_PUBLIC) 2 9 3].

Definition sample_public_handle : KeysetHandle :=
  new_KeysetHandle sample_public_keyset.

(** A key manager that knows one template: the world counts the managers
    it has made, and a manager is the keyset it manages. *)
Definition toy_manager_ops : @KeysetManagerOps string Keyset nat :=
  mkKeysetManagerOps
    (fun template made =>
       if String.eqb template "ECDSA_P256"
       then (Value sample_keyset, S made)
       else (Failed (mkStatus INVALID_ARGUMENT "unsupported key template"),
             made))
    (fun manager made => (new_KeysetHandle manager, made)).

(** * Properties *)

(** ** Formatted messages *)

Lemma append_empty_r : forall s : string, s ++ "" = s.
Proof.
  induction s as [| c s IH]; simpl; [reflexivity | rewrite IH; reflexivity].
Qed.

Lemma ToStatusF_decrypting : forall (code : Code) (msg : string),
  ToStatusF code "Error decrypting encrypted keyset: %s" msg =
  mkStatus code ("Error decrypting encrypted keyset: " ++ c_str msg).
Proof.
  intros. unfold ToStatusF. cbn [printf_s Ascii.eqb Bool.eqb andb].
  rewrite append_empty_r. reflexivity.
Qed.

Lemma c_str_parse_failure_message :
  c_str parse_failure_message = parse_failure_message.
Proof. reflexivity. Qed.

(** ** Running programs *)

Section RunLemmas.

Context {Aead KeysetReader KeysetWriter : Type}.
Context {W : Type} (h : @handler Aead KeysetReader KeysetWriter W).

Lemma outcome_eta : forall A (o : @outcome Aead KeysetReader KeysetWriter W A),
  o = mkOutcome (result o) (world o) (calls o).
Proof. intros A o. destruct o. reflexivity. Qed.

Lemma run_bind : forall A B (p : prog A) (f : A -> prog B) (w : W),
  run h (bind p f) w =
  mkOutcome (result (run h (f (result (run h p w))) (world (run h p w))))
            (world (run h (f (result (run h p w))) (world (run h p w))))
            (calls (run h p w) ++
             calls (run h (f (result (run h p w))) (world (run h p w)))).
Proof.
  intros A B p f. induction p as [a | X c k IH]; intro w; simpl.
  - apply outcome_eta.
  - rewrite IH. reflexivity.
Qed.

Lemma run_perform : forall X (c : call X) (w : W),
  run h (perform c) w =
  mkOutcome (fst (h _ c w)) (snd (h _ c w)) [Invoke c (fst (h _ c w))].
Proof. reflexivity. Qed.

Lemma run_lift : forall A (p : prog A) (this : KeysetHandle) (w : W),
  run h (lift p this) w =
  mkOutcome (result (run h p w), this) (world (run h p w))
            (calls (run h p w)).
Proof.
  intros. unfold lift. rewrite run_bind. simpl. rewrite app_nil_r.
  reflexivity.
Qed.

Lemma run_mbind : forall A B (m : method A) (f : A -> method B)
    (this : KeysetHandle) (w : W),
  run h (mbind m f this) w =
  let o1 := run h (m this) w in
  let o2 := run h (f (fst (result o1)) (snd (result o1))) (world o1) in
  mkOutcome (result o2) (world o2) (calls o1 ++ calls o2).
Proof. intros. unfold mbind. rewrite run_bind. reflexivity. Qed.

Lemma run_mret : forall A (a : A) (this : KeysetHandle) (w : W),
  run h (mret a this) w = mkOutcome (a, this) w [].
Proof. reflexivity. Qed.

Lemma run_get_keyset : forall (this : KeysetHandle) (w : W),
  run h (get_keyset this) w = mkOutcome (keyset_ this, this) w [].
Proof. reflexivity. Qed.

End RunLemmas.

(** ** Receivers *)

Section Receivers.

Context {Aead KeysetReader KeysetWriter : Type}.

Lemma mret_leaves_receiver : forall A (a : A),
  leaves_receiver_unmodified (@mret Aead KeysetReader KeysetWriter A a).
Proof. intros A a W h w this. reflexivity. Qed.

Lemma get_keyset_leaves_receiver :
  leaves_receiver_unmodified (@get_keyset Aead KeysetReader KeysetWriter).
Proof. intros W h w this. reflexivity. Qed.

Lemma lift_leaves_receiver :
  forall A (p : @prog Aead KeysetReader KeysetWriter A),
  leaves_receiver_unmodified (lift p).
Proof. intros A p W h w this. rewrite run_lift. reflexivity. Qed.

Lemma mbind_leaves_receiver :
  forall A B (m : @method Aead KeysetReader KeysetWriter A)
         (f : A -> @method Aead KeysetReader KeysetWriter B),
  leaves_receiver_unmodified m ->
  (forall a, leaves_receiver_unmodified (f a)) ->
  leaves_receiver_unmodified (mbind m f).
Proof.
  intros A B m f Hm Hf W h w this. rewrite run_mbind. simpl.
  rewrite Hm. apply Hf.
Qed.

End Receivers.

(** ** Envelope write and read *)

Section Envelope.

Context {Aead KeysetReader KeysetWriter : Type}.
Context {codec : KeysetCodec}.
Context {W : Type} (h : @handler Aead KeysetReader KeysetWriter W).

Lemma run_Encrypt : forall (keyset : Keyset) (aead : Aead) (w : W),
  run h (Encrypt keyset aead) w =
  let r := h _ (Aead_Encrypt aead (SerializeAsString keyset) "") w in
  mkOutcome
    (match fst r with
     | Failed s => Failed s
     | Value ciphertext => Value (mkEncryptedKeyset ciphertext)
     end)
    (snd r)
    [Invoke (Aead_Encrypt aead (SerializeAsString keyset) "") (fst r)].
Proof.
  intros. unfold Encrypt. rewrite run_bind, run_perform. simpl.
  destruct (fst (h _ (Aead_Encrypt aead (SerializeAsString keyset) "") w));
    reflexivity.
Qed.

Lemma run_Decrypt : forall (enc : EncryptedKeyset) (aead : Aead) (w : W),
  run h (Decrypt enc aead) w =
  let r := h _ (Aead_Decrypt aead (encrypted_keyset enc) "") w in
  mkOutcome
    (match fst r with
     | Failed s => Failed s
     | Value plaintext =>
         match ParseFromString plaintext with
         | None => Failed (mkStatus INVALID_ARGUMENT parse_failure_message)
         | Some keyset => Value keyset
         end
     end)
    (snd r)
    [Invoke (Aead_Decrypt aead (encrypted_keyset enc) "") (fst r)].
Proof.
  intros. unfold Decrypt. rewrite run_bind, run_perform. simpl.
  destruct (fst (h _ (Aead_Decrypt aead (encrypted_keyset enc) "") w))
    as [s | plaintext]; [reflexivity |].
  destruct (ParseFromString plaintext); reflexivity.
Qed.

(** [Read] when the reader fails. *)
Lemma run_Read_unreadable : forall reader aead w s,
  fst (h _ (ReadEncrypted reader) w) = Failed s ->
  run h (Read reader aead) w =
  mkOutcome
    (Failed (ToStatusF INVALID_ARGUMENT
               "Error reading encrypted keyset data: %s" (error_message s)))
    (snd (h _ (ReadEncrypted reader) w))
    [Invoke (ReadEncrypted reader) (Failed s)].
Proof.
  intros reader aead w s Hr. unfold Read.
  rewrite run_bind, run_perform. simpl. rewrite Hr. reflexivity.
Qed.

(** [Read] when the reader delivers an encrypted keyset. *)
Lemma run_Read_readable : forall reader aead w enc,
  fst (h _ (ReadEncrypted reader) w) = Value enc ->
  run h (Read reader aead) w =
  let w1 := snd (h _ (ReadEncrypted reader) w) in
  let d := run h (Decrypt enc aead) w1 in
  mkOutcome
    (match result d with
     | Failed s =>
         Failed (ToStatusF INVALID_ARGUMENT
                   "Error decrypting encrypted keyset: %s" (error_message s))
     | Value keyset => Value (new_KeysetHandle keyset)
     end)
    (world d)
    (Invoke (ReadEncrypted reader) (Value enc) :: calls d).
Proof.
  intros reader aead w enc Hr. unfold Read.
  rewrite run_bind, run_perform. cbn [result world calls]. rewrite Hr.
  rewrite run_bind.
  destruct (result (run h (Decrypt enc aead)
                      (snd (h _ (ReadEncrypted reader) w))));
    cbn [run result world calls app]; rewrite app_nil_r; reflexivity.
Qed.

Lemma run_Write_null : forall aead this w,
  run h (Write None aead this) w =
  mkOutcome (mkStatus INVALID_ARGUMENT "Writer must be non-null", this) w [].
Proof. reflexivity. Qed.

Lemma run_Write_encrypt_failed : forall writer aead this w s,
  fst (h _ (Aead_Encrypt aead (SerializeAsString (keyset_ this)) "") w)
    = Failed s ->
  run h (Write (Some writer) aead this) w =
  mkOutcome
    (ToStatusF INVALID_ARGUMENT "Encryption of the keyset failed: %s"
       (error_message s), this)
    (snd (h _ (Aead_Encrypt aead (SerializeAsString (keyset_ this)) "") w))
    [Invoke (Aead_Encrypt aead (SerializeAsString (keyset_ this)) "")
       (Failed s)].
Proof.
  intros writer aead this w s He. unfold Write.
  rewrite run_mbind, run_get_keyset. cbv zeta. cbn [result world calls fst snd].
  rewrite run_mbind, run_lift, run_Encrypt.
  cbv zeta. cbn [result world calls fst snd]. rewrite He.
  rewrite run_mret. reflexivity.
Qed.

Lemma run_Write_encrypted : forall writer aead this w ciphertext,
  fst (h _ (Aead_Encrypt aead (SerializeAsString (keyset_ this)) "") w)
    = Value ciphertext ->
  run h (Write (Some writer) aead this) w =
  let w1 :=
    snd (h _ (Aead_Encrypt aead (SerializeAsString (keyset_ this)) "") w) in
  let enc := mkEncryptedKeyset ciphertext in
  let r := h _ (Writer_Write writer enc) w1 in
  mkOutcome (fst r, this) (snd r)
    [Invoke (Aead_Encrypt aead (SerializeAsString (keyset_ this)) "")
       (Value ciphertext);
     Invoke (Writer_Write writer enc) (fst r)].
Proof.
  intros writer aead this w ciphertext He. unfold Write.
  rewrite run_mbind, run_get_keyset. cbv zeta. cbn [result world calls fst snd].
  rewrite run_mbind, run_lift, run_Encrypt.
  cbv zeta. cbn [result world calls fst snd]. rewrite He.
  rewrite run_lift, run_perform. reflexivity.
Qed.

End Envelope.

(** C6. [Write] with a null writer answers INVALID_ARGUMENT ("Writer must
    be non-null") and calls no collaborator at all: the AEAD's [Encrypt] is
    invoked zero times, the trace of calls is empty and the world is
    untouched. *)
Theorem Write_null_writer_rejected :
  forall (Aead KeysetReader KeysetWriter : Type) (codec : KeysetCodec)
         (W : Type) (h : @handler Aead KeysetReader KeysetWriter W)
         (aead : Aead) (this : KeysetHandle) (w : W),
    fst (result (run h (Write None aead this) w))
      = mkStatus INVALID_ARGUMENT "Writer must be non-null" /\
    count_calls is_Aead_Encrypt (calls (run h (Write None aead this) w)) = 0 /\
    calls (run h (Write None aead this) w) = [] /\
    world (run h (Write None aead this) w) = w.
Proof.
  intros. rewrite run_Write_null. repeat split.
Qed.

(** C7. With a non-null writer, [Write] calls the writer's [Write] exactly
    once when the AEAD's [Encrypt] answers with a ciphertext, and then
    returns the very status the writer answered; when [Encrypt] fails the
    writer is called zero times. *)
Theorem Write_invokes_writer_once :
  forall (Aead KeysetReader KeysetWriter : Type) (codec : KeysetCodec)
         (W : Type) (h : @handler Aead KeysetReader KeysetWriter W)
         (writer : KeysetWriter) (aead : Aead) (this : KeysetHandle) (w : W),
    match
      fst (h _ (Aead_Encrypt aead (SerializeAsString (keyset_ this)) "") w)
    with
    | Failed s =>
        count_calls is_Writer_Write
          (calls (run h (Write (Some writer) aead this) w)) = 0
    | Value ciphertext =>
        count_calls is_Writer_Write
          (calls (run h (Write (Some writer) aead this) w)) = 1 /\
        fst (result (run h (Write (Some writer) aead this) w)) =
          fst (h _ (Writer_Write writer (mkEncryptedKeyset ciphertext))
                 (snd (h _ (Aead_Encrypt aead
                              (SerializeAsString (keyset_ this)) "") w))) /\
        In (Invoke (Writer_Write writer (mkEncryptedKeyset ciphertext))
              (fst (result (run h (Write (Some writer) aead this) w))))
           (calls (run h (Write (Some writer) aead this) w))
    end.
Proof.
  intros.
  destruct (fst (h _ (Aead_Encrypt aead (SerializeAsString (keyset_ this)) "")
                   w)) as [s | ciphertext] eqn:He.
  - rewrite (run_Write_encrypt_failed h writer aead this w _ He). reflexivity.
  - rewrite (run_Write_encrypted h writer aead this w _ He).
    cbv zeta. cbn [result calls fst]. repeat split.
    right. left. reflexivity.
Qed.

(** C1. Round trip.  Let [Write] hand the keyset of [this] to a writer
    under an AEAD and answer OK, and let [Read] run next, under the same
    AEAD, on a reader that delivers what the writer accepted.  If the AEAD
    decrypts what it encrypted and the codec parses what it serialized for
    this keyset, [Read] yields a handle whose keyset is the keyset of
    [this], hence with the same serialized bytes. *)
Theorem Read_after_Write_roundtrip :
  forall (Aead KeysetReader KeysetWriter : Type) (codec : KeysetCodec)
         (W : Type) (h : @handler Aead KeysetReader KeysetWriter W)
         (writer : KeysetWriter) (reader : KeysetReader) (aead : Aead)
         (this : KeysetHandle) (w : W),
    (forall p ad c w1,
        fst (h _ (Aead_Encrypt aead p ad) w1) = Value c ->
        forall w2, fst (h _ (Aead_Decrypt aead c ad) w2) = Value p) ->
    ParseFromString (SerializeAsString (keyset_ this))
      = Some (keyset_ this) ->
    (forall enc w1,
        Status_ok (fst (h _ (Writer_Write writer enc) w1)) = true ->
        fst (h _ (ReadEncrypted reader)
               (snd (h _ (Writer_Write writer enc) w1))) = Value enc) ->
    Status_ok (fst (result (run h (Write (Some writer) aead this) w)))
      = true ->
    exists (read_back : KeysetHandle),
      result (run h (Read reader aead)
                (world (run h (Write (Some writer) aead this) w)))
        = Value read_back /\
      keyset_ read_back = keyset_ this /\
      SerializeAsString (keyset_ read_back)
        = SerializeAsString (keyset_ this).
Proof.
  intros Aead KeysetReader KeysetWriter codec W h writer reader aead this w
         Haead Hcodec Htransport Hok.
  destruct (fst (h _ (Aead_Encrypt aead (SerializeAsString (keyset_ this)) "")
                   w)) as [s | ciphertext] eqn:He.
  - rewrite (run_Write_encrypt_failed h writer aead this w _ He) in Hok.
    discriminate Hok.
  - rewrite (run_Write_encrypted h writer aead this w _ He) in Hok |- *.
    cbv zeta in Hok |- *. cbn [result world fst] in Hok |- *.
    specialize (Htransport _ _ Hok).
    rewrite (run_Read_readable h reader aead _ _ Htransport). cbv zeta.
    rewrite run_Decrypt. cbv zeta. cbn [result encrypted_keyset].
    rewrite (Haead _ _ _ _ He). rewrite Hcodec.
    exists (new_KeysetHandle (keyset_ this)). repeat split.
Qed.

(** C8 (as amended).  When decryption succeeds and the plaintext does not
    parse, [Read] fails with INVALID_ARGUMENT and the fixed text "Error
    decrypting encrypted keyset: Could not parse the decrypted data as a
    Keyset-proto.".  A decryption failure with status [s] fails with the
    same code and the text "Error decrypting encrypted keyset: " followed
    by the message of [s] read as a C string, that is, cut at its first
    NUL byte; the two errors differ exactly when the message so cut is
    not the parse-failure text. *)
Theorem Read_parse_failure_vs_decrypt_failure :
  forall (Aead KeysetReader KeysetWriter : Type) (codec : KeysetCodec)
         (W : Type) (h1 h2 : @handler Aead KeysetReader KeysetWriter W)
         (reader1 reader2 : KeysetReader) (aead1 aead2 : Aead) (w1 w2 : W)
         (enc1 enc2 : EncryptedKeyset) (plaintext : string) (s : Status),
    fst (h1 _ (ReadEncrypted reader1) w1) = Value enc1 ->
    fst (h1 _ (Aead_Decrypt aead1 (encrypted_keyset enc1) "")
            (snd (h1 _ (ReadEncrypted reader1) w1))) = Value plaintext ->
    ParseFromString plaintext = None ->
    fst (h2 _ (ReadEncrypted reader2) w2) = Value enc2 ->
    fst (h2 _ (Aead_Decrypt aead2 (encrypted_keyset enc2) "")
            (snd (h2 _ (ReadEncrypted reader2) w2))) = Failed s ->
    result (run h1 (Read reader1 aead1) w1)
      = Failed (mkStatus INVALID_ARGUMENT
                  ("Error decrypting encrypted keyset: "
                   ++ parse_failure_message)) /\
    result (run h2 (Read reader2 aead2) w2)
      = Failed (mkStatus INVALID_ARGUMENT
                  ("Error decrypting encrypted keyset: "
                   ++ c_str (error_message s))) /\
    (result (run h1 (Read reader1 aead1) w1)
       = result (run h2 (Read reader2 aead2) w2)
     <-> c_str (error_message s) = parse_failure_message).
Proof.
  intros Aead KeysetReader KeysetWriter codec W h1 h2 reader1 reader2
         aead1 aead2 w1 w2 enc1 enc2 plaintext s Hr1 Hd1 Hp Hr2 Hd2.
  rewrite (run_Read_readable h1 reader1 aead1 w1 _ Hr1).
  rewrite (run_Read_readable h2 reader2 aead2 w2 _ Hr2). cbv zeta.
  rewrite !run_Decrypt. cbv zeta. cbn [result].
  rewrite Hd1, Hd2, Hp. rewrite !ToStatusF_decrypting.
  cbn [error_message]. rewrite c_str_parse_failure_message.
  split; [reflexivity | split; [reflexivity |]].
  split.
  - intro Heq. injection Heq as Hmsg. symmetry. exact Hmsg.
  - intro Hmsg. rewrite Hmsg. reflexivity.
Qed.

(** ** Public-keyset derivation *)

Section Derivation.

Context {Aead KeysetReader KeysetWriter : Type}.
Context {W : Type} (h : @handler Aead KeysetReader KeysetWriter W).

Lemma is_private_true : forall k,
  is_private k = true <->
  key_material_type (key_data k) = ASYMMETRIC_PRIVATE.
Proof.
  intro k. unfold is_private.
  destruct (key_material_type (key_data k)); simpl; split; intro H;
    try reflexivity; discriminate H.
Qed.

Lemma is_private_false : forall k,
  is_private k = false <->
  key_material_type (key_data k) <> ASYMMETRIC_PRIVATE.
Proof.
  intro k. unfold is_private.
  destruct (key_material_type (key_data k)); simpl; split; intro H;
    try reflexivity; try discriminate; try (exfalso; apply H; reflexivity).
Qed.

Lemma run_ExtractPublicKey_not_private : forall (k : Key) (w : W),
  is_private k = false ->
  run h (ExtractPublicKey k) w =
  mkOutcome (Failed (mkStatus INVALID_ARGUMENT not_private_message)) w [].
Proof.
  intros k w Hk. unfold ExtractPublicKey. unfold is_private in Hk.
  rewrite Hk. reflexivity.
Qed.

Lemma run_ExtractPublicKey_private : forall (k : Key) (w : W),
  is_private k = true ->
  run h (ExtractPublicKey k) w =
  let c := Registry_GetPublicKeyData (type_url (key_data k))
             (value (key_data k)) in
  mkOutcome
    (match fst (h _ c w) with
     | Failed s => Failed s
     | Value registry_key_data => Value (with_key_data k registry_key_data)
     end)
    (snd (h _ c w))
    [Invoke c (fst (h _ c w))].
Proof.
  intros k w Hk. unfold ExtractPublicKey. unfold is_private in Hk.
  rewrite Hk. cbn [negb]. rewrite run_bind, run_perform.
  cbv zeta. cbn [result world calls].
  destruct (fst (h _ (Registry_GetPublicKeyData (type_url (key_data k))
                        (value (key_data k))) w)); reflexivity.
Qed.

Lemma run_for_each_key_cons : forall (k : Key) (rest : list Key)
    (public_keyset : Keyset) (w : W),
  run h (for_each_key (k :: rest) public_keyset) w =
  match result (run h (ExtractPublicKey k) w) with
  | Failed s =>
      mkOutcome (Failed s) (world (run h (ExtractPublicKey k) w))
                (calls (run h (ExtractPublicKey k) w))
  | Value public_key =>
      mkOutcome
        (result (run h (for_each_key rest
                          (mkKeyset (primary_key_id public_keyset)
                             (key public_keyset ++ [public_key])))
                   (world (run h (ExtractPublicKey k) w))))
        (world (run h (for_each_key rest
                         (mkKeyset (primary_key_id public_keyset)
                            (key public_keyset ++ [public_key])))
                  (world (run h (ExtractPublicKey k) w))))
        (calls (run h (ExtractPublicKey k) w) ++
         calls (run h (for_each_key rest
                         (mkKeyset (primary_key_id public_keyset)
                            (key public_keyset ++ [public_key])))
                  (world (run h (ExtractPublicKey k) w))))
  end.
Proof.
  intros. cbn [for_each_key]. rewrite run_bind.
  destruct (result (run h (ExtractPublicKey k) w)).
  - cbn [run result world calls]. rewrite app_nil_r. reflexivity.
  - reflexivity.
Qed.

(** What a completed loop has done. *)
Lemma for_each_key_Value : forall (keys : list Key) (public_keyset : Keyset)
    (w : W) (built : Keyset),
  result (run h (for_each_key keys public_keyset) w) = Value built ->
  exists answers : list KeyData,
    length answers = length keys /\
    forallb is_private keys = true /\
    calls (run h (for_each_key keys public_keyset) w)
      = lookups keys answers /\
    built = mkKeyset (primary_key_id public_keyset)
              (key public_keyset ++ derived keys answers).
Proof.
  induction keys as [| k rest IH]; intros public_keyset w built Hres.
  - cbn in Hres. injection Hres as <-. exists []. repeat split.
    cbn. rewrite app_nil_r. destruct public_keyset; reflexivity.
  - rewrite run_for_each_key_cons in Hres |- *.
    destruct (is_private k) eqn:Hk.
    + rewrite (run_ExtractPublicKey_private k w Hk) in Hres |- *.
      cbv zeta in Hres |- *. cbn [result world calls] in Hres |- *.
      destruct (fst (h _ (Registry_GetPublicKeyData (type_url (key_data k))
                            (value (key_data k))) w)) as [s | d] eqn:Hd.
      * discriminate Hres.
      * cbn [result calls] in Hres |- *.
        destruct (IH _ _ _ Hres) as (answers & Hlen & Hpriv & Hcalls & Hbuilt).
        exists (d :: answers). repeat split.
        -- cbn. rewrite Hlen. reflexivity.
        -- cbn. rewrite Hk, Hpriv. reflexivity.
        -- rewrite Hcalls. reflexivity.
        -- rewrite Hbuilt. cbn [primary_key_id key].
           rewrite <- app_assoc. reflexivity.
    + rewrite (run_ExtractPublicKey_not_private k w Hk) in Hres.
      discriminate Hres.
Qed.

(** The loop completes when every entry is private and every lookup it
    issues is answered with key data. *)
Lemma for_each_key_completes : forall (keys : list Key)
    (public_keyset : Keyset) (w : W),
  forallb is_private keys = true ->
  forallb lookup_succeeded (calls (run h (for_each_key keys public_keyset) w))
    = true ->
  exists built : Keyset,
    result (run h (for_each_key keys public_keyset) w) = Value built.
Proof.
  induction keys as [| k rest IH]; intros public_keyset w Hpriv Hlook.
  - exists public_keyset. reflexivity.
  - cbn [forallb] in Hpriv. apply andb_prop in Hpriv as [Hk Hrest].
    rewrite run_for_each_key_cons in Hlook |- *.
    rewrite (run_ExtractPublicKey_private k w Hk) in Hlook |- *.
    cbv zeta in Hlook |- *. cbn [result world calls] in Hlook |- *.
    destruct (fst (h _ (Registry_GetPublicKeyData (type_url (key_data k))
                          (value (key_data k))) w)) as [s | d] eqn:Hd.
    + cbn in Hlook. discriminate Hlook.
    + cbn [calls app forallb] in Hlook.
      apply andb_prop in Hlook as [_ Hlook].
      cbn [result]. apply IH; assumption.
Qed.


(** The loop talks to the registry only. *)
Lemma for_each_key_calls_no_aead : forall (keys : list Key)
    (public_keyset : Keyset) (w : W),
  forallb (fun i => negb (is_Aead_call i))
    (calls (run h (for_each_key keys public_keyset) w)) = true.
Proof.
  induction keys as [| k rest IH]; intros public_keyset w.
  - reflexivity.
  - rewrite run_for_each_key_cons.
    destruct (is_private k) eqn:Hk.
    + rewrite (run_ExtractPublicKey_private k w Hk).
      cbv zeta. cbn [result world calls].
      destruct (fst (h _ (Registry_GetPublicKeyData (type_url (key_data k))
                            (value (key_data k))) w)) as [s | d].
      * reflexivity.
      * cbn [calls app forallb]. rewrite IH. reflexivity.
    + rewrite (run_ExtractPublicKey_not_private k w Hk). reflexivity.
Qed.

Lemma run_GetPublicKeysetHandle : forall (this : KeysetHandle) (w : W),
  run h (GetPublicKeysetHandle this) w =
  mkOutcome
    (match result (run h (for_each_key (key (keyset_ this)) new_Keyset) w)
     with
     | Failed s => Failed s
     | Value built =>
         Value (new_KeysetHandle
                  (set_primary_key_id built (primary_key_id (keyset_ this))))
     end, this)
    (world (run h (for_each_key (key (keyset_ this)) new_Keyset) w))
    (calls (run h (for_each_key (key (keyset_ this)) new_Keyset) w)).
Proof.
  intros. unfold GetPublicKeysetHandle.
  rewrite run_mbind, run_get_keyset. cbv zeta. cbn [result world calls fst snd].
  rewrite run_mbind, run_lift. cbv zeta. cbn [result world calls fst snd app].
  destruct (result (run h (for_each_key (key (keyset_ this)) new_Keyset) w)).
  - rewrite run_mret. cbn [result world calls]. rewrite app_nil_r.
    reflexivity.
  - rewrite run_mbind, run_get_keyset. cbv zeta.
    cbn [result world calls fst snd app]. rewrite run_mret.
    cbn [result world calls]. rewrite app_nil_r. reflexivity.
Qed.

End Derivation.

Section DerivedEntries.

Lemma derived_length : forall (keys : list Key) (answers : list KeyData),
  length answers = length keys ->
  length (derived keys answers) = length keys.
Proof.
  intros keys answers Hlen. unfold derived.
  rewrite length_map, length_combine, Hlen. apply Nat.min_id.
Qed.

Lemma derived_key_data : forall (keys : list Key) (answers : list KeyData),
  length answers = length keys ->
  map key_data (derived keys answers) = answers.
Proof.
  induction keys as [| k keys IH]; intros [| d answers] Hlen;
    try discriminate Hlen; [reflexivity |].
  cbn. f_equal. apply IH. injection Hlen as Hlen. exact Hlen.
Qed.

Lemma derived_keeps : forall (A : Type) (field : Key -> A),
  (forall k d, field (with_key_data k d) = field k) ->
  forall (keys : list Key) (answers : list KeyData),
    length answers = length keys ->
    map field (derived keys answers) = map field keys.
Proof.
  intros A field Hfield.
  induction keys as [| k keys IH]; intros [| d answers] Hlen;
    try discriminate Hlen; [reflexivity |].
  cbn. rewrite Hfield. f_equal. apply IH. injection Hlen as Hlen. exact Hlen.
Qed.

End DerivedEntries.

Section DerivationOutcome.

Context {Aead KeysetReader KeysetWriter : Type}.
Context {W : Type} (h : @handler Aead KeysetReader KeysetWriter W).

(** What a successful derivation has done. *)
Lemma GetPublicKeysetHandle_Value : forall (this public_handle : KeysetHandle)
    (w : W),
  fst (result (run h (GetPublicKeysetHandle this) w)) = Value public_handle ->
  exists answers : list KeyData,
    length answers = length (key (keyset_ this)) /\
    forallb is_private (key (keyset_ this)) = true /\
    calls (run h (GetPublicKeysetHandle this) w)
      = lookups (key (keyset_ this)) answers /\
    public_handle =
      new_KeysetHandle
        (mkKeyset (primary_key_id (keyset_ this))
           (derived (key (keyset_ this)) answers)).
Proof.
  intros this public_handle w Hres.
  rewrite run_GetPublicKeysetHandle in Hres |- *.
  cbn [result calls fst] in Hres |- *.
  destruct (result (run h (for_each_key (key (keyset_ this)) new_Keyset) w))
    as [s | built] eqn:Hloop; [discriminate Hres |].
  injection Hres as <-.
  destruct (for_each_key_Value h _ _ _ _ Hloop)
    as (answers & Hlen & Hpriv & Hcalls & Hbuilt).
  exists answers. repeat split; try assumption.
  rewrite Hbuilt. reflexivity.
Qed.

End DerivationOutcome.

(** C2. On a keyset whose entries are all asymmetric-private, when every
    registry lookup issued is answered with key data, the derivation
    returns a handle on a new keyset with as many entries, in the same
    order: the i-th lookup is for the i-th entry's type identifier and key
    bytes, the i-th derived entry keeps the i-th entry's key id, status
    and output-prefix type and carries the key data the registry answered,
    and the primary key id is the original one. *)
Theorem GetPublicKeysetHandle_derives_public_keyset :
  forall (Aead KeysetReader KeysetWriter W : Type)
         (h : @handler Aead KeysetReader KeysetWriter W)
         (this : KeysetHandle) (w : W),
    Forall (fun k => key_material_type (key_data k) = ASYMMETRIC_PRIVATE)
           (key (keyset_ this)) ->
    Forall (fun i => lookup_succeeded i = true)
           (calls (run h (GetPublicKeysetHandle this) w)) ->
    exists (public_keyset : Keyset) (answers : list KeyData),
      fst (result (run h (GetPublicKeysetHandle this) w))
        = Value (new_KeysetHandle public_keyset) /\
      calls (run h (GetPublicKeysetHandle this) w)
        = lookups (key (keyset_ this)) answers /\
      length answers = length (key (keyset_ this)) /\
      length (key public_keyset) = length (key (keyset_ this)) /\
      map key_id (key public_keyset) = map key_id (key (keyset_ this)) /\
      map status (key public_keyset) = map status (key (keyset_ this)) /\
      map output_prefix_type (key public_keyset)
        = map output_prefix_type (key (keyset_ this)) /\
      map key_data (key public_keyset) = answers /\
      primary_key_id public_keyset = primary_key_id (keyset_ this).
Proof.
  intros Aead KeysetReader KeysetWriter W h this w Hpriv Hlook.
  assert (Hp : forallb is_private (key (keyset_ this)) = true).
  { apply forallb_forall. intros k Hin. apply is_private_true.
    rewrite Forall_forall in Hpriv. apply Hpriv. exact Hin. }
  assert (Hl : forallb lookup_succeeded
                 (calls (run h (for_each_key (key (keyset_ this)) new_Keyset)
                           w)) = true).
  { rewrite run_GetPublicKeysetHandle in Hlook. cbn [calls] in Hlook.
    apply forallb_forall. rewrite Forall_forall in Hlook. exact Hlook. }
  destruct (for_each_key_completes h _ new_Keyset w Hp Hl) as (built & Hb).
  assert (Hres : fst (result (run h (GetPublicKeysetHandle this) w))
                 = Value (new_KeysetHandle
                            (set_primary_key_id built
                               (primary_key_id (keyset_ this))))).
  { rewrite run_GetPublicKeysetHandle. cbn [result fst]. rewrite Hb.
    reflexivity. }
  destruct (GetPublicKeysetHandle_Value h _ _ _ Hres)
    as (answers & Hlen & _ & Hcalls & Hshape).
  exists (mkKeyset (primary_key_id (keyset_ this))
            (derived (key (keyset_ this)) answers)), answers.
  cbn [key primary_key_id]. repeat split.
  - rewrite Hres, Hshape. reflexivity.
  - exact Hcalls.
  - exact Hlen.
  - apply derived_length. exact Hlen.
  - apply derived_keeps; [reflexivity | exact Hlen].
  - apply derived_keeps; [reflexivity | exact Hlen].
  - apply derived_keeps; [reflexivity | exact Hlen].
  - apply derived_key_data. exact Hlen.
Qed.

(** C3 (as amended).  In a successful derivation every derived entry
    carries, as its whole key data, what the registry answered for the
    corresponding entry; its material classification is therefore the one
    in the registry's answer, and the derived entries are all
    asymmetric-public exactly when the registry's answers are. *)
Theorem GetPublicKeysetHandle_classification_from_registry :
  forall (Aead KeysetReader KeysetWriter W : Type)
         (h : @handler Aead KeysetReader KeysetWriter W)
         (this public_handle : KeysetHandle) (w : W),
    fst (result (run h (GetPublicKeysetHandle this) w))
      = Value public_handle ->
    exists answers : list KeyData,
      calls (run h (GetPublicKeysetHandle this) w)
        = lookups (key (keyset_ this)) answers /\
      length answers = length (key (keyset_ this)) /\
      map key_data (key (keyset_ public_handle)) = answers /\
      map (fun k => key_material_type (key_data k))
          (key (keyset_ public_handle))
        = map key_material_type answers /\
      (Forall (fun k => key_material_type (key_data k) = ASYMMETRIC_PUBLIC)
              (key (keyset_ public_handle))
       <-> Forall (fun d => key_material_type d = ASYMMETRIC_PUBLIC) answers).
Proof.
  intros Aead KeysetReader KeysetWriter W h this public_handle w Hres.
  destruct (GetPublicKeysetHandle_Value h _ _ _ Hres)
    as (answers & Hlen & _ & Hcalls & Hshape).
  exists answers.
  assert (Hkd : map key_data (key (keyset_ public_handle)) = answers).
  { rewrite Hshape. cbn [keyset_ key]. apply derived_key_data. exact Hlen. }
  repeat split; try assumption.
  - rewrite <- Hkd, map_map. reflexivity.
  - intro Hall. rewrite <- Hkd. apply Forall_map. exact Hall.
  - intro Hall. rewrite <- Hkd in Hall. apply Forall_map in Hall. exact Hall.
Qed.


(** C9. On a handle owning a keyset without entries the derivation
    succeeds, calls no collaborator, and returns a handle on a keyset
    without entries (with the same primary key id). *)
Theorem GetPublicKeysetHandle_empty_keyset :
  forall (Aead KeysetReader KeysetWriter W : Type)
         (h : @handler Aead KeysetReader KeysetWriter W)
         (primary : Z) (w : W),
    fst (result (run h (GetPublicKeysetHandle
                          (new_KeysetHandle (mkKeyset primary []))) w))
      = Value (new_KeysetHandle (mkKeyset primary [])) /\
    calls (run h (GetPublicKeysetHandle
                    (new_KeysetHandle (mkKeyset primary []))) w) = [].
Proof.
  intros. rewrite run_GetPublicKeysetHandle. split; reflexivity.
Qed.

(** C10. Whatever the collaborators do and whether it succeeds or fails,
    the derivation hands its receiver back unmodified: same handle, hence
    same entries and same primary key id. *)
Theorem GetPublicKeysetHandle_leaves_original_unmodified :
  forall (Aead KeysetReader KeysetWriter W : Type)
         (h : @handler Aead KeysetReader KeysetWriter W)
         (this : KeysetHandle) (w : W),
    snd (result (run h (GetPublicKeysetHandle this) w)) = this /\
    key (keyset_ (snd (result (run h (GetPublicKeysetHandle this) w))))
      = key (keyset_ this) /\
    primary_key_id
      (keyset_ (snd (result (run h (GetPublicKeysetHandle this) w))))
      = primary_key_id (keyset_ this).
Proof.
  intros Aead KeysetReader KeysetWriter W h this w.
  assert (Hframe : leaves_receiver_unmodified
                     (@GetPublicKeysetHandle Aead KeysetReader KeysetWriter)).
  { unfold GetPublicKeysetHandle.
    apply mbind_leaves_receiver; [apply get_keyset_leaves_receiver |].
    intro keyset.
    apply mbind_leaves_receiver; [apply lift_leaves_receiver |].
    intros [s | built]; [apply mret_leaves_receiver |].
    apply mbind_leaves_receiver; [apply get_keyset_leaves_receiver |].
    intro keyset'. apply mret_leaves_receiver. }
  rewrite (Hframe W h w this). repeat split.
Qed.

(** ** Associated data *)

Section AssociatedData.

Context {Aead KeysetReader KeysetWriter : Type}.

Lemma filter_is_Aead_call_none :
  forall t : list (@invocation Aead KeysetReader KeysetWriter),
  forallb (fun i => negb (is_Aead_call i)) t = true ->
  filter is_Aead_call t = [].
Proof.
  induction t as [| i t IH]; intro H; [reflexivity |].
  cbn [forallb] in H. apply andb_prop in H as [Hi Ht].
  cbn [filter]. apply negb_true_iff in Hi. rewrite Hi. apply IH. exact Ht.
Qed.

Lemma empty_associated_data_of_other_calls :
  forall t : list (@invocation Aead KeysetReader KeysetWriter),
  forallb (fun i => negb (is_Aead_call i)) t = true ->
  Forall (fun i => empty_associated_data i = true) t.
Proof.
  induction t as [| i t IH]; intro H; [constructor |].
  cbn [forallb] in H. apply andb_prop in H as [Hi Ht].
  constructor; [| apply IH; exact Ht].
  destruct i as [X c reply]. destruct c; try reflexivity; discriminate Hi.
Qed.

End AssociatedData.

(** C5. Every AEAD call of [Write], [Read] and [GetPublicKeysetHandle]
    carries the empty associated data.  [Write] with a writer makes one
    AEAD call, an [Encrypt] of the serialized keyset (none without a
    writer); [Read] makes one AEAD call when the reader delivers, a
    [Decrypt] of the delivered ciphertext (none otherwise);
    [GetPublicKeysetHandle] makes none. *)
Theorem aead_calls_use_empty_associated_data :
  forall (Aead KeysetReader KeysetWriter : Type) (codec : KeysetCodec)
         (W : Type) (h : @handler Aead KeysetReader KeysetWriter W)
         (writer : option KeysetWriter) (reader : KeysetReader)
         (aead : Aead) (this : KeysetHandle) (w : W),
    Forall (fun i => empty_associated_data i = true)
           (calls (run h (Write writer aead this) w)) /\
    Forall (fun i => empty_associated_data i = true)
           (calls (run h (Read reader aead) w)) /\
    Forall (fun i => empty_associated_data i = true)
           (calls (run h (GetPublicKeysetHandle this) w)) /\
    filter is_Aead_call (calls (run h (Write writer aead this) w)) =
      match writer with
      | None => []
      | Some _ =>
          [Invoke (Aead_Encrypt aead (SerializeAsString (keyset_ this)) "")
             (fst (h _ (Aead_Encrypt aead
                          (SerializeAsString (keyset_ this)) "") w))]
      end /\
    filter is_Aead_call (calls (run h (Read reader aead) w)) =
      match fst (h _ (ReadEncrypted reader) w) with
      | Failed _ => []
      | Value enc =>
          [Invoke (Aead_Decrypt aead (encrypted_keyset enc) "")
             (fst (h _ (Aead_Decrypt aead (encrypted_keyset enc) "")
                     (snd (h _ (ReadEncrypted reader) w))))]
      end /\
    filter is_Aead_call (calls (run h (GetPublicKeysetHandle this) w)) = [].
Proof.
  intros Aead KeysetReader KeysetWriter codec W h writer reader aead this w.
  assert (HW :
    Forall (fun i => empty_associated_data i = true)
           (calls (run h (Write writer aead this) w)) /\
    filter is_Aead_call (calls (run h (Write writer aead this) w)) =
      match writer with
      | None => []
      | Some _ =>
          [Invoke (Aead_Encrypt aead (SerializeAsString (keyset_ this)) "")
             (fst (h _ (Aead_Encrypt aead
                          (SerializeAsString (keyset_ this)) "") w))]
      end).
  { destruct writer as [writer |].
    - destruct (fst (h _ (Aead_Encrypt aead
                            (SerializeAsString (keyset_ this)) "") w))
        as [s | ciphertext] eqn:He.
      + rewrite (run_Write_encrypt_failed h writer aead this w _ He).
        split; [repeat constructor | reflexivity].
      + rewrite (run_Write_encrypted h writer aead this w _ He).
        split; [repeat constructor | reflexivity].
    - rewrite run_Write_null. split; [constructor | reflexivity]. }
  assert (HR :
    Forall (fun i => empty_associated_data i = true)
           (calls (run h (Read reader aead) w)) /\
    filter is_Aead_call (calls (run h (Read reader aead) w)) =
      match fst (h _ (ReadEncrypted reader) w) with
      | Failed _ => []
      | Value enc =>
          [Invoke (Aead_Decrypt aead (encrypted_keyset enc) "")
             (fst (h _ (Aead_Decrypt aead (encrypted_keyset enc) "")
                     (snd (h _ (ReadEncrypted reader) w))))]
      end).
  { destruct (fst (h _ (ReadEncrypted reader) w)) as [s | enc] eqn:Hr.
    - rewrite (run_Read_unreadable h reader aead w _ Hr).
      split; [repeat constructor | reflexivity].
    - rewrite (run_Read_readable h reader aead w _ Hr). cbv zeta.
      rewrite run_Decrypt. cbv zeta. cbn [calls].
      split; [repeat constructor | reflexivity]. }
  assert (HG : forallb (fun i => negb (is_Aead_call i))
                 (calls (run h (GetPublicKeysetHandle this) w)) = true).
  { rewrite run_GetPublicKeysetHandle. cbn [calls].
    apply for_each_key_calls_no_aead. }
  destruct HW as [HW1 HW2]. destruct HR as [HR1 HR2].
  repeat split; try assumption.
  - apply empty_associated_data_of_other_calls. exact HG.
  - apply filter_is_Aead_call_none. exact HG.
Qed.

(** ** Concrete runs against the test doubles *)

Lemma substring_whole : forall s : string, substring 0 (String.length s) s = s.
Proof.
  induction s as [| c s IH]; cbn; [reflexivity | rewrite IH; reflexivity].
Qed.

(** The toy AEAD opens what it sealed. *)
Lemma unseal_seal : forall p ad c : string,
  seal p ad = Value c -> unseal c ad = Value p.
Proof.
  intros p ad c H. injection H as <-. unfold unseal.
  simpl.
  rewrite Nat.sub_0_r, substring_whole. destruct p; reflexivity.
Qed.

(** Witness for C1: the sample keyset written and read back through the
    storage cell under the toy AEAD and the toy codec. *)
Lemma Read_after_Write_roundtrip_witness :
  exists read_back : KeysetHandle,
    result (run (fake_handler honest) (@Read _ _ _ toy_codec tt tt)
              (world (run (fake_handler honest)
                        (@Write _ _ _ toy_codec (Some tt) tt sample_handle)
                        empty_storage)))
      = Value read_back /\
    keyset_ read_back = keyset_ sample_handle /\
    toy_serialize (keyset_ read_back) = toy_serialize (keyset_ sample_handle).
Proof.
  apply (@Read_after_Write_roundtrip unit unit unit toy_codec _
           (fake_handler honest) tt tt tt sample_handle empty_storage).
  - intros p ad c w1 H w2. cbn in H |- *. apply unseal_seal. exact H.
  - vm_compute. reflexivity.
  - intros enc w1 H. reflexivity.
  - vm_compute. reflexivity.
Defined.

(** Witness for C2: the two-entry sample keyset against the registry that
    knows its key type. *)
Lemma GetPublicKeysetHandle_derives_public_keyset_witness :
  exists (public_keyset : Keyset) (answers : list KeyData),
    fst (result (run (fake_handler honest)
                   (GetPublicKeysetHandle sample_handle) empty_storage))
      = Value (new_KeysetHandle public_keyset) /\
    calls (run (fake_handler honest)
             (GetPublicKeysetHandle sample_handle) empty_storage)
      = lookups (key (keyset_ sample_handle)) answers /\
    length answers = length (key (keyset_ sample_handle)) /\
    length (key public_keyset) = length (key (keyset_ sample_handle)) /\
    map key_id (key public_keyset)
      = map key_id (key (keyset_ sample_handle)) /\
    map status (key public_keyset)
      = map status (key (keyset_ sample_handle)) /\
    map output_prefix_type (key public_keyset)
      = map output_prefix_type (key (keyset_ sample_handle)) /\
    map key_data (key public_keyset) = answers /\
    primary_key_id public_keyset = primary_key_id (keyset_ sample_handle).
Proof.
  apply (@GetPublicKeysetHandle_derives_public_keyset unit unit unit _
           (fake_handler honest) sample_handle empty_storage).
  - repeat constructor.
  - vm_compute. repeat constructor.
Defined.

(** Counterexample for C3: the registry answers with key data still
    classified asymmetric-private; the derivation succeeds and the derived
    entry of key id 7 is classified asymmetric-private, not
    asymmetric-public. *)
Lemma GetPublicKeysetHandle_classification_counterexample :
  key_material_type (key_data private_key_7) = ASYMMETRIC_PRIVATE /\
  exists derived_entry : Key,
    fst (result (run (fake_handler echoing)
                   (GetPublicKeysetHandle single_handle) empty_storage))
      = Value (new_KeysetHandle (mkKeyset 7 [derived_entry])) /\
    key_id derived_entry = 7%Z /\
    key_material_type (key_data derived_entry) = ASYMMETRIC_PRIVATE /\
    key_material_type (key_data derived_entry) <> ASYMMETRIC_PUBLIC.
Proof.
  split; [reflexivity |].
  exists (with_key_data private_key_7
            (mkKeyData private_url "secret-7" ASYMMETRIC_PRIVATE)).
  repeat split. discriminate.
Qed.

(** Witness for C3 (as amended): the single-entry keyset against the
    registry that knows its key type. *)
Lemma GetPublicKeysetHandle_classification_from_registry_witness :
  exists answers : list KeyData,
    calls (run (fake_handler honest)
             (GetPublicKeysetHandle single_handle) empty_storage)
      = lookups (key (keyset_ single_handle)) answers /\
    length answers = length (key (keyset_ single_handle)) /\
    map key_data
        (key (mkKeyset 7
                [with_key_data private_key_7
                   (mkKeyData public_url "pub-of-secret-7"
                      ASYMMETRIC_PUBLIC)])) = answers /\
    map (fun k => key_material_type (key_data k))
        (key (mkKeyset 7
                [with_key_data private_key_7
                   (mkKeyData public_url "pub-of-secret-7"
                      ASYMMETRIC_PUBLIC)]))
      = map key_material_type answers /\
    (Forall (fun k => key_material_type (key_data k) = ASYMMETRIC_PUBLIC)
            (key (mkKeyset 7
                    [with_key_data private_key_7
                       (mkKeyData public_url "pub-of-secret-7"
                          ASYMMETRIC_PUBLIC)]))
     <-> Forall (fun d => key_material_type d = ASYMMETRIC_PUBLIC) answers).
Proof.
  apply (@GetPublicKeysetHandle_classification_from_registry unit unit unit _
           (fake_handler honest) single_handle
           (new_KeysetHandle
              (mkKeyset 7
                 [with_key_data private_key_7
                    (mkKeyData public_url "pub-of-secret-7"
                       ASYMMETRIC_PUBLIC)]))
           empty_storage).
  vm_compute. reflexivity.
Defined.



(** Counterexample for C8: under the honest AEAD the stored blob decrypts
    to bytes that do not parse; under an AEAD whose decryption fails with
    the parse-failure wording the same blob does not decrypt.  [Read]
    returns the same status in both runs, so the caller cannot tell the
    parse failure from the decryption failure. *)
Lemma Read_parse_failure_indistinguishable_counterexample :
  fst (fake_handler honest _ (Aead_Decrypt tt "sealed:garbage" "")
         garbage_storage) = Value "garbage" /\
  toy_parse "garbage" = None /\
  fst (fake_handler misreporting _ (Aead_Decrypt tt "sealed:garbage" "")
         garbage_storage)
    = Failed (mkStatus INTERNAL parse_failure_message) /\
  result (run (fake_handler honest) (@Read _ _ _ toy_codec tt tt)
            garbage_storage)
    = result (run (fake_handler misreporting) (@Read _ _ _ toy_codec tt tt)
                garbage_storage).
Proof. repeat split. Qed.

(** Witness for C8 (as amended): a blob that decrypts to unparseable
    bytes against a blob the AEAD rejects with a wording of its own. *)
Lemma Read_parse_failure_vs_decrypt_failure_witness :
  result (run (fake_handler honest) (@Read _ _ _ toy_codec tt tt)
            garbage_storage)
    = Failed (mkStatus INVALID_ARGUMENT
                ("Error decrypting encrypted keyset: "
                 ++ parse_failure_message)) /\
  result (run (fake_handler honest) (@Read _ _ _ toy_codec tt tt)
            tampered_storage)
    = Failed (mkStatus INVALID_ARGUMENT
                ("Error decrypting encrypted keyset: "
                 ++ c_str "decryption failed")) /\
  (result (run (fake_handler honest) (@Read _ _ _ toy_codec tt tt)
             garbage_storage)
     = result (run (fake_handler honest) (@Read _ _ _ toy_codec tt tt)
                 tampered_storage)
   <-> c_str "decryption failed" = parse_failure_message).
Proof.
  apply (@Read_parse_failure_vs_decrypt_failure unit unit unit toy_codec _
           (fake_handler honest) (fake_handler honest) tt tt tt tt
           garbage_storage tampered_storage
           (mkEncryptedKeyset "sealed:garbage") (mkEncryptedKeyset "tampered")
           "garbage" (mkStatus INVALID_ARGUMENT "decryption failed")).
  - reflexivity.
  - reflexivity.
  - reflexivity.
  - reflexivity.
  - reflexivity.
Defined.

(** * Further properties of the translation unit *)

(** ** Wording of the wrapped failures *)

Lemma ToStatusF_reading : forall (code : Code) (msg : string),
  ToStatusF code "Error reading encrypted keyset data: %s" msg =
  mkStatus code ("Error reading encrypted keyset data: " ++ c_str msg).
Proof.
  intros. unfold ToStatusF. cbn [printf_s Ascii.eqb Bool.eqb andb].
  rewrite append_empty_r. reflexivity.
Qed.

Lemma ToStatusF_encrypting : forall (code : Code) (msg : string),
  ToStatusF code "Encryption of the keyset failed: %s" msg =
  mkStatus code ("Encryption of the keyset failed: " ++ c_str msg).
Proof.
  intros. unfold ToStatusF. cbn [printf_s Ascii.eqb Bool.eqb andb].
  rewrite append_empty_r. reflexivity.
Qed.

(** ** Read *)

(** X1. When the reader fails, [Read] fails with INVALID_ARGUMENT and the
    text "Error reading encrypted keyset data: " followed by the reader's
    message read as a C string, that is, cut at its first NUL byte,
    whatever code the reader used; the reader is the only collaborator
    called, the AEAD is never reached. *)
Theorem Read_reader_failure :
  forall (Aead KeysetReader KeysetWriter : Type) (codec : KeysetCodec)
         (W : Type) (h : @handler Aead KeysetReader KeysetWriter W)
         (reader : KeysetReader) (aead : Aead) (w : W) (s : Status),
    fst (h _ (ReadEncrypted reader) w) = Failed s ->
    result (run h (Read reader aead) w)
      = Failed (mkStatus INVALID_ARGUMENT
                  ("Error reading encrypted keyset data: "
                   ++ c_str (error_message s))) /\
    calls (run h (Read reader aead) w)
      = [Invoke (ReadEncrypted reader) (Failed s)] /\
    count_calls is_Aead_call (calls (run h (Read reader aead) w)) = 0.
Proof.
  intros Aead KeysetReader KeysetWriter codec W h reader aead w s Hr.
  rewrite (run_Read_unreadable h reader aead w _ Hr).
  cbn [result calls]. rewrite ToStatusF_reading. repeat split.
Qed.

(** X2. Every failure of [Read] carries the code INVALID_ARGUMENT: the
    codes of the reader's and of the AEAD's failures are not passed on. *)
Theorem Read_failures_are_invalid_argument :
  forall (Aead KeysetReader KeysetWriter : Type) (codec : KeysetCodec)
         (W : Type) (h : @handler Aead KeysetReader KeysetWriter W)
         (reader : KeysetReader) (aead : Aead) (w : W) (s : Status),
    result (run h (Read reader aead) w) = Failed s ->
    error_code s = INVALID_ARGUMENT.
Proof.
  intros Aead KeysetReader KeysetWriter codec W h reader aead w s Hres.
  destruct (fst (h _ (ReadEncrypted reader) w)) as [e | enc] eqn:Hr.
  - rewrite (run_Read_unreadable h reader aead w _ Hr) in Hres.
    cbn [result] in Hres. injection Hres as <-. reflexivity.
  - rewrite (run_Read_readable h reader aead w _ Hr) in Hres.
    cbv zeta in Hres. rewrite run_Decrypt in Hres. cbv zeta in Hres.
    cbn [result] in Hres.
    destruct (fst (h _ (Aead_Decrypt aead (encrypted_keyset enc) "")
                     (snd (h _ (ReadEncrypted reader) w))))
      as [e | plaintext].
    + injection Hres as <-. reflexivity.
    + destruct (ParseFromString plaintext).
      * discriminate Hres.
      * injection Hres as <-. reflexivity.
Qed.

(** X3. [Read] returns a handle exactly when the reader delivered an
    encrypted keyset, the AEAD decrypted its ciphertext, and the plaintext
    parsed; the handle then owns the parsed keyset.  In particular a
    ciphertext the AEAD rejects never yields a handle. *)
Theorem Read_success_iff :
  forall (Aead KeysetReader KeysetWriter : Type) (codec : KeysetCodec)
         (W : Type) (h : @handler Aead KeysetReader KeysetWriter W)
         (reader : KeysetReader) (aead : Aead) (w : W)
         (handle : KeysetHandle),
    result (run h (Read reader aead) w) = Value handle <->
    exists (enc : EncryptedKeyset) (plaintext : string),
      fst (h _ (ReadEncrypted reader) w) = Value enc /\
      fst (h _ (Aead_Decrypt aead (encrypted_keyset enc) "")
             (snd (h _ (ReadEncrypted reader) w))) = Value plaintext /\
      ParseFromString plaintext = Some (keyset_ handle).
Proof.
  intros Aead KeysetReader KeysetWriter codec W h reader aead w handle.
  split.
  - intro Hres.
    destruct (fst (h _ (ReadEncrypted reader) w)) as [e | enc] eqn:Hr.
    + rewrite (run_Read_unreadable h reader aead w _ Hr) in Hres.
      discriminate Hres.
    + rewrite (run_Read_readable h reader aead w _ Hr) in Hres.
      cbv zeta in Hres. rewrite run_Decrypt in Hres. cbv zeta in Hres.
      cbn [result] in Hres.
      destruct (fst (h _ (Aead_Decrypt aead (encrypted_keyset enc) "")
                       (snd (h _ (ReadEncrypted reader) w))))
        as [e | plaintext] eqn:Hd; [discriminate Hres |].
      destruct (ParseFromString plaintext) as [keyset |] eqn:Hp;
        [| discriminate Hres].
      injection Hres as <-. exists enc, plaintext. repeat split; assumption.
  - intros (enc & plaintext & Hr & Hd & Hp).
    rewrite (run_Read_readable h reader aead w _ Hr). cbv zeta.
    rewrite run_Decrypt. cbv zeta. cbn [result]. rewrite Hd, Hp.
    destruct handle. reflexivity.
Qed.

(** X4. [Read] asks the reader exactly once and first, asks the AEAD to
    decrypt at most once, and never encrypts, writes or consults the
    registry. *)
Theorem Read_call_discipline :
  forall (Aead KeysetReader KeysetWriter : Type) (codec : KeysetCodec)
         (W : Type) (h : @handler Aead KeysetReader KeysetWriter W)
         (reader : KeysetReader) (aead : Aead) (w : W),
    hd_error (calls (run h (Read reader aead) w))
      = Some (Invoke (ReadEncrypted reader)
                (fst (h _ (ReadEncrypted reader) w))) /\
    count_calls is_ReadEncrypted (calls (run h (Read reader aead) w)) = 1 /\
    count_calls is_Aead_Decrypt (calls (run h (Read reader aead) w)) <= 1 /\
    count_calls is_Aead_Encrypt (calls (run h (Read reader aead) w)) = 0 /\
    count_calls is_Writer_Write (calls (run h (Read reader aead) w)) = 0 /\
    count_calls is_Registry_lookup (calls (run h (Read reader aead) w)) = 0.
Proof.
  intros Aead KeysetReader KeysetWriter codec W h reader aead w.
  destruct (fst (h _ (ReadEncrypted reader) w)) as [e | enc] eqn:Hr.
  - rewrite (run_Read_unreadable h reader aead w _ Hr).
    cbn. repeat split; try lia.
  - rewrite (run_Read_readable h reader aead w _ Hr). cbv zeta.
    rewrite run_Decrypt. cbv zeta. cbn. repeat split; try lia.
Qed.

(** ** Write *)

(** X5. When the AEAD fails to encrypt, [Write] answers INVALID_ARGUMENT
    with the text "Encryption of the keyset failed: " followed by the
    AEAD's message read as a C string, that is, cut at its first NUL
    byte, whatever code the AEAD used, and the encryption is the only
    collaborator call. *)
Theorem Write_encryption_failure :
  forall (Aead KeysetReader KeysetWriter : Type) (codec : KeysetCodec)
         (W : Type) (h : @handler Aead KeysetReader KeysetWriter W)
         (writer : KeysetWriter) (aead : Aead) (this : KeysetHandle) (w : W)
         (s : Status),
    fst (h _ (Aead_Encrypt aead (SerializeAsString (keyset_ this)) "") w)
      = Failed s ->
    fst (result (run h (Write (Some writer) aead this) w))
      = mkStatus INVALID_ARGUMENT
          ("Encryption of the keyset failed: " ++ c_str (error_message s)) /\
    calls (run h (Write (Some writer) aead this) w)
      = [Invoke (Aead_Encrypt aead (SerializeAsString (keyset_ this)) "")
           (Failed s)] /\
    world (run h (Write (Some writer) aead this) w)
      = snd (h _ (Aead_Encrypt aead (SerializeAsString (keyset_ this)) "") w).
Proof.
  intros Aead KeysetReader KeysetWriter codec W h writer aead this w s He.
  rewrite (run_Write_encrypt_failed h writer aead this w _ He).
  cbn [result calls world fst]. rewrite ToStatusF_encrypting. repeat split.
Qed.

(** X6. [Write] hands its receiver back unmodified, with or without a
    writer and whatever the AEAD and the writer answer. *)
Theorem Write_leaves_receiver_unmodified :
  forall (Aead KeysetReader KeysetWriter : Type) (codec : KeysetCodec)
         (W : Type) (h : @handler Aead KeysetReader KeysetWriter W)
         (writer : option KeysetWriter) (aead : Aead) (this : KeysetHandle)
         (w : W),
    snd (result (run h (Write writer aead this) w)) = this.
Proof.
  intros Aead KeysetReader KeysetWriter codec W h writer aead this w.
  assert (Hframe : leaves_receiver_unmodified
                     (@Write Aead KeysetReader KeysetWriter codec
                        writer aead)).
  { unfold Write. destruct writer as [writer |].
    - apply mbind_leaves_receiver; [apply get_keyset_leaves_receiver |].
      intro keyset.
      apply mbind_leaves_receiver; [apply lift_leaves_receiver |].
      intros [s | enc]; [apply mret_leaves_receiver |].
      apply lift_leaves_receiver.
    - apply mret_leaves_receiver. }
  apply Hframe.
Qed.

(** X7. [Write] answers an OK status exactly when it was given a writer,
    the AEAD produced a ciphertext, and the writer accepted the encrypted
    keyset wrapping that ciphertext. *)
Theorem Write_ok_iff :
  forall (Aead KeysetReader KeysetWriter : Type) (codec : KeysetCodec)
         (W : Type) (h : @handler Aead KeysetReader KeysetWriter W)
         (writer : option KeysetWriter) (aead : Aead) (this : KeysetHandle)
         (w : W),
    Status_ok (fst (result (run h (Write writer aead this) w))) = true <->
    exists (target : KeysetWriter) (ciphertext : string),
      writer = Some target /\
      fst (h _ (Aead_Encrypt aead (SerializeAsString (keyset_ this)) "") w)
        = Value ciphertext /\
      Status_ok
        (fst (h _ (Writer_Write target (mkEncryptedKeyset ciphertext))
                (snd (h _ (Aead_Encrypt aead
                             (SerializeAsString (keyset_ this)) "") w))))
        = true.
Proof.
  intros Aead KeysetReader KeysetWriter codec W h writer aead this w.
  destruct writer as [writer |].
  - destruct (fst (h _ (Aead_Encrypt aead
                          (SerializeAsString (keyset_ this)) "") w))
      as [s | ciphertext] eqn:He.
    + rewrite (run_Write_encrypt_failed h writer aead this w _ He).
      cbn [result fst]. split.
      * intro H. discriminate H.
      * intros (target & c & _ & Hc & _). discriminate Hc.
    + rewrite (run_Write_encrypted h writer aead this w _ He).
      cbv zeta. cbn [result fst]. split.
      * intro H. exists writer, ciphertext. repeat split. exact H.
      * intros (target & c & Ht & Hc & Hok).
        injection Ht as <-. injection Hc as <-. exact Hok.
  - rewrite run_Write_null. cbn [result fst]. split.
    + intro H. discriminate H.
    + intros (target & c & Ht & _). discriminate Ht.
Qed.

(** X8. [Write] makes at most two collaborator calls: at most one
    [Encrypt], and a writer's [Write] only when there was an [Encrypt]; it
    never reads, decrypts or consults the registry. *)
Theorem Write_call_discipline :
  forall (Aead KeysetReader KeysetWriter : Type) (codec : KeysetCodec)
         (W : Type) (h : @handler Aead KeysetReader KeysetWriter W)
         (writer : option KeysetWriter) (aead : Aead) (this : KeysetHandle)
         (w : W),
    length (calls (run h (Write writer aead this) w)) <= 2 /\
    count_calls is_Aead_Encrypt (calls (run h (Write writer aead this) w))
      <= 1 /\
    count_calls is_Writer_Write (calls (run h (Write writer aead this) w))
      <= count_calls is_Aead_Encrypt
           (calls (run h (Write writer aead this) w)) /\
    count_calls is_ReadEncrypted (calls (run h (Write writer aead this) w))
      = 0 /\
    count_calls is_Aead_Decrypt (calls (run h (Write writer aead this) w))
      = 0 /\
    count_calls is_Registry_lookup (calls (run h (Write writer aead this) w))
      = 0.
Proof.
  intros Aead KeysetReader KeysetWriter codec W h writer aead this w.
  destruct writer as [writer |].
  - destruct (fst (h _ (Aead_Encrypt aead
                          (SerializeAsString (keyset_ this)) "") w))
      as [s | ciphertext] eqn:He.
    + rewrite (run_Write_encrypt_failed h writer aead this w _ He).
      cbn. repeat split; try lia.
    + rewrite (run_Write_encrypted h writer aead this w _ He).
      cbn. repeat split; try lia.
  - rewrite run_Write_null. cbn. repeat split; try lia.
Qed.

(** ** ExtractPublicKey *)

(** X9. An entry that is not asymmetric-private is rejected with
    INVALID_ARGUMENT before the registry is consulted: no collaborator is
    called and the world is untouched. *)
Theorem ExtractPublicKey_rejects_non_private :
  forall (Aead KeysetReader KeysetWriter W : Type)
         (h : @handler Aead KeysetReader KeysetWriter W) (k : Key) (w : W),
    key_material_type (key_data k) <> ASYMMETRIC_PRIVATE ->
    run h (ExtractPublicKey k) w =
    mkOutcome
      (Failed (mkStatus INVALID_ARGUMENT
                 "Key material is not of type KeyData::ASYMMETRIC_PRIVATE"))
      w [].
Proof.
  intros Aead KeysetReader KeysetWriter W h k w Hk.
  apply run_ExtractPublicKey_not_private. apply is_private_false. exact Hk.
Qed.

(** X10. For an asymmetric-private entry whose registry lookup fails, the
    registry's status is returned as it is, code and message alike, after
    exactly one lookup for the entry's type identifier and key bytes. *)
Theorem ExtractPublicKey_passes_registry_failure_on :
  forall (Aead KeysetReader KeysetWriter W : Type)
         (h : @handler Aead KeysetReader KeysetWriter W) (k : Key) (w : W)
         (s : Status),
    key_material_type (key_data k) = ASYMMETRIC_PRIVATE ->
    fst (h _ (Registry_GetPublicKeyData (type_url (key_data k))
                (value (key_data k))) w) = Failed s ->
    result (run h (ExtractPublicKey k) w) = Failed s /\
    calls (run h (ExtractPublicKey k) w)
      = [Invoke (Registry_GetPublicKeyData (type_url (key_data k))
                   (value (key_data k))) (Failed s)].
Proof.
  intros Aead KeysetReader KeysetWriter W h k w s Hk Hreply.
  apply is_private_true in Hk.
  rewrite (run_ExtractPublicKey_private h k w Hk). cbv zeta.
  cbn [result calls]. rewrite Hreply. split; reflexivity.
Qed.

(** X11. [ExtractPublicKey] returns an entry exactly when the given entry
    is asymmetric-private and the registry answers with key data; the
    returned entry is the given one with its key data replaced by the
    registry's answer, its status, key id and output-prefix type kept. *)
Theorem ExtractPublicKey_success_iff :
  forall (Aead KeysetReader KeysetWriter W : Type)
         (h : @handler Aead KeysetReader KeysetWriter W) (k public_key : Key)
         (w : W),
    result (run h (ExtractPublicKey k) w) = Value public_key <->
    key_material_type (key_data k) = ASYMMETRIC_PRIVATE /\
    exists d : KeyData,
      fst (h _ (Registry_GetPublicKeyData (type_url (key_data k))
                  (value (key_data k))) w) = Value d /\
      public_key = mkKey d (status k) (key_id k) (output_prefix_type k).
Proof.
  intros Aead KeysetReader KeysetWriter W h k public_key w. split.
  - intro Hres. destruct (is_private k) eqn:Hk.
    + rewrite (run_ExtractPublicKey_private h k w Hk) in Hres.
      cbv zeta in Hres. cbn [result] in Hres.
      destruct (fst (h _ (Registry_GetPublicKeyData (type_url (key_data k))
                            (value (key_data k))) w)) as [s | d] eqn:Hd;
        [discriminate Hres |].
      injection Hres as <-. split; [apply is_private_true; exact Hk |].
      exists d. split; reflexivity.
    + rewrite (run_ExtractPublicKey_not_private h k w Hk) in Hres.
      discriminate Hres.
  - intros (Hk & d & Hd & ->). apply is_private_true in Hk.
    rewrite (run_ExtractPublicKey_private h k w Hk). cbv zeta.
    cbn [result]. rewrite Hd. reflexivity.
Qed.

(** ** GetPublicKeysetHandle *)

Section DerivationAnatomy.

Context {Aead KeysetReader KeysetWriter : Type}.
Context {W : Type} (h : @handler Aead KeysetReader KeysetWriter W).

Lemma lookups_cons : forall (k : Key) (d : KeyData) (keys : list Key)
    (answers : list KeyData),
  @lookups Aead KeysetReader KeysetWriter (k :: keys) (d :: answers)
  = lookup_of k d :: lookups keys answers.
Proof. reflexivity. Qed.

Lemma lookups_all_succeeded : forall (keys : list Key)
    (answers : list KeyData),
  forallb lookup_succeeded
    (@lookups Aead KeysetReader KeysetWriter keys answers) = true.
Proof.
  induction keys as [| k keys IH]; intros [| d answers]; try reflexivity.
  rewrite lookups_cons. cbn [forallb]. rewrite IH. reflexivity.
Qed.

Lemma lookups_all_registry : forall (keys : list Key)
    (answers : list KeyData),
  forallb is_Registry_lookup
    (@lookups Aead KeysetReader KeysetWriter keys answers) = true.
Proof.
  induction keys as [| k keys IH]; intros [| d answers]; try reflexivity.
  rewrite lookups_cons. cbn [forallb]. rewrite IH. reflexivity.
Qed.

Lemma lookups_length : forall (keys : list Key) (answers : list KeyData),
  length answers = length keys ->
  length (@lookups Aead KeysetReader KeysetWriter keys answers)
  = length keys.
Proof.
  intros keys answers Hlen. unfold lookups.
  rewrite length_map, length_combine, Hlen. apply Nat.min_id.
Qed.

(** What a failed loop has done. *)
Lemma for_each_key_Failed : forall (keys : list Key) (public_keyset : Keyset)
    (w : W) (s : Status),
  result (run h (for_each_key keys public_keyset) w) = Failed s ->
  exists (pre : list Key) (k : Key) (post : list Key)
         (answers : list KeyData),
    keys = (pre ++ k :: post)%list /\
    forallb is_private pre = true /\
    length answers = length pre /\
    ((is_private k = false /\
      s = mkStatus INVALID_ARGUMENT not_private_message /\
      calls (run h (for_each_key keys public_keyset) w)
        = lookups pre answers) \/
     (is_private k = true /\
      calls (run h (for_each_key keys public_keyset) w)
        = (lookups pre answers ++
           [Invoke (Registry_GetPublicKeyData (type_url (key_data k))
                      (value (key_data k))) (Failed s)])%list)).
Proof.
  induction keys as [| k rest IH]; intros public_keyset w s Hres.
  - discriminate Hres.
  - rewrite run_for_each_key_cons in Hres |- *.
    destruct (is_private k) eqn:Hk.
    + rewrite (run_ExtractPublicKey_private h k w Hk) in Hres |- *.
      cbv zeta in Hres |- *. cbn [result world calls] in Hres |- *.
      destruct (fst (h _ (Registry_GetPublicKeyData (type_url (key_data k))
                            (value (key_data k))) w)) as [e | d] eqn:Hd.
      * cbn [result] in Hres. injection Hres as ->.
        exists [], k, rest, []. repeat split.
        right. split; [exact Hk | reflexivity].
      * cbn [result calls] in Hres |- *.
        destruct (IH _ _ _ Hres)
          as (pre & k' & post & answers & Hkeys & Hpre & Hlen & Hcase).
        exists (k :: pre), k', post, (d :: answers). repeat split.
        -- rewrite Hkeys. reflexivity.
        -- cbn [forallb]. rewrite Hk, Hpre. reflexivity.
        -- cbn [length]. rewrite Hlen. reflexivity.
        -- destruct Hcase as [(Hk' & Hs & Hcalls) | (Hk' & Hcalls)].
           ++ left. repeat split; try assumption.
              rewrite Hcalls, lookups_cons. reflexivity.
           ++ right. split; [assumption |].
              rewrite Hcalls, lookups_cons. reflexivity.
    + rewrite (run_ExtractPublicKey_not_private h k w Hk) in Hres |- *.
      cbn [result calls] in Hres |- *. injection Hres as <-.
      exists [], k, rest, []. repeat split.
      left. repeat split. exact Hk.
Qed.

(** The loop issues registry lookups only, at most one per entry. *)
Lemma for_each_key_lookups_only : forall (keys : list Key)
    (public_keyset : Keyset) (w : W),
  forallb is_Registry_lookup
    (calls (run h (for_each_key keys public_keyset) w)) = true /\
  length (calls (run h (for_each_key keys public_keyset) w)) <= length keys.
Proof.
  induction keys as [| k rest IH]; intros public_keyset w.
  - split; [reflexivity | apply le_n].
  - rewrite run_for_each_key_cons.
    destruct (is_private k) eqn:Hk.
    + rewrite (run_ExtractPublicKey_private h k w Hk).
      cbv zeta. cbn [result world calls].
      destruct (fst (h _ (Registry_GetPublicKeyData (type_url (key_data k))
                            (value (key_data k))) w)) as [e | d].
      * cbn. split; [reflexivity | lia].
      * cbn [calls app forallb length].
        destruct (IH (mkKeyset (primary_key_id public_keyset)
                        (key public_keyset ++ [with_key_data k d]))
                     (snd (h _ (Registry_GetPublicKeyData
                                  (type_url (key_data k))
                                  (value (key_data k))) w)))
          as [Hall Hlen].
        rewrite Hall. split; [reflexivity | cbn [is_Registry_lookup]; lia].
    + rewrite (run_ExtractPublicKey_not_private h k w Hk).
      cbn. split; [reflexivity | lia].
Qed.

End DerivationAnatomy.

(** X12. Anatomy of a failed derivation.  The entries split at the first
    failing one: those before it are all asymmetric-private and each was
    looked up once and answered, in order; the failing entry is either not
    private, and then the status is the INVALID_ARGUMENT of
    [ExtractPublicKey] and no further lookup was made, or private, and
    then its own lookup is the last call and the returned status is
    exactly the registry's.  The entries after it are never looked up. *)
Theorem GetPublicKeysetHandle_failure_anatomy :
  forall (Aead KeysetReader KeysetWriter W : Type)
         (h : @handler Aead KeysetReader KeysetWriter W)
         (this : KeysetHandle) (w : W) (s : Status),
    fst (result (run h (GetPublicKeysetHandle this) w)) = Failed s ->
    exists (pre : list Key) (k : Key) (post : list Key)
           (answers : list KeyData),
      key (keyset_ this) = (pre ++ k :: post)%list /\
      Forall (fun e => key_material_type (key_data e) = ASYMMETRIC_PRIVATE)
             pre /\
      length answers = length pre /\
      ((key_material_type (key_data k) <> ASYMMETRIC_PRIVATE /\
        s = mkStatus INVALID_ARGUMENT
              "Key material is not of type KeyData::ASYMMETRIC_PRIVATE" /\
        calls (run h (GetPublicKeysetHandle this) w) = lookups pre answers)
       \/
       (key_material_type (key_data k) = ASYMMETRIC_PRIVATE /\
        calls (run h (GetPublicKeysetHandle this) w)
          = (lookups pre answers ++
             [Invoke (Registry_GetPublicKeyData (type_url (key_data k))
                        (value (key_data k))) (Failed s)])%list)).
Proof.
  intros Aead KeysetReader KeysetWriter W h this w s Hres.
  rewrite run_GetPublicKeysetHandle in Hres |- *.
  cbn [result calls fst] in Hres |- *.
  destruct (result (run h (for_each_key (key (keyset_ this)) new_Keyset) w))
    as [e | built] eqn:Hloop; [| discriminate Hres].
  injection Hres as ->.
  destruct (for_each_key_Failed h _ _ _ _ Hloop)
    as (pre & k & post & answers & Hkeys & Hpre & Hlen & Hcase).
  exists pre, k, post, answers. repeat split; try assumption.
  - apply Forall_forall. intros e Hin. apply is_private_true.
    rewrite forallb_forall in Hpre. apply Hpre. exact Hin.
  - destruct Hcase as [(Hk & Hs & Hcalls) | (Hk & Hcalls)].
    + left. repeat split; try assumption. apply is_private_false. exact Hk.
    + right. split; [apply is_private_true; exact Hk | exact Hcalls].
Qed.

(** X13. A derivation succeeds only if every entry is asymmetric-private
    and every lookup was answered with key data; its calls are then, in
    the order of the entries, exactly one registry lookup per entry, the
    i-th call being the lookup of the i-th entry's type identifier and
    key bytes, and no other call. *)
Theorem GetPublicKeysetHandle_success_only_if :
  forall (Aead KeysetReader KeysetWriter W : Type)
         (h : @handler Aead KeysetReader KeysetWriter W)
         (this public_handle : KeysetHandle) (w : W),
    fst (result (run h (GetPublicKeysetHandle this) w))
      = Value public_handle ->
    Forall (fun k => key_material_type (key_data k) = ASYMMETRIC_PRIVATE)
           (key (keyset_ this)) /\
    Forall (fun i => lookup_succeeded i = true)
           (calls (run h (GetPublicKeysetHandle this) w)) /\
    Forall (fun i => is_Registry_lookup i = true)
           (calls (run h (GetPublicKeysetHandle this) w)) /\
    length (calls (run h (GetPublicKeysetHandle this) w))
      = length (key (keyset_ this)) /\
    exists answers : list KeyData,
      length answers = length (key (keyset_ this)) /\
      calls (run h (GetPublicKeysetHandle this) w)
        = lookups (key (keyset_ this)) answers.
Proof.
  intros Aead KeysetReader KeysetWriter W h this public_handle w Hres.
  destruct (GetPublicKeysetHandle_Value h _ _ _ Hres)
    as (answers & Hlen & Hpriv & Hcalls & _).
  rewrite Hcalls. repeat split.
  - apply Forall_forall. intros k Hin. apply is_private_true.
    rewrite forallb_forall in Hpriv. apply Hpriv. exact Hin.
  - apply Forall_forall. apply forallb_forall. apply lookups_all_succeeded.
  - apply Forall_forall. apply forallb_forall. apply lookups_all_registry.
  - apply lookups_length. exact Hlen.
  - exists answers. split; [exact Hlen | reflexivity].
Qed.

(** X14. Whatever its outcome, a derivation calls the registry only, never
    the reader, the writer or the AEAD, and makes at most one lookup per
    entry of the keyset: its calls are, in the order of the entries, the
    answered lookups of a leading run of entries, the i-th call being the
    lookup of the i-th entry, followed by at most one more call, the
    failed lookup of the entry that comes next. *)
Theorem GetPublicKeysetHandle_calls_registry_only :
  forall (Aead KeysetReader KeysetWriter W : Type)
         (h : @handler Aead KeysetReader KeysetWriter W)
         (this : KeysetHandle) (w : W),
    Forall (fun i => is_Registry_lookup i = true)
           (calls (run h (GetPublicKeysetHandle this) w)) /\
    length (calls (run h (GetPublicKeysetHandle this) w))
      <= length (key (keyset_ this)) /\
    exists (pre post : list Key) (answers : list KeyData),
      key (keyset_ this) = (pre ++ post)%list /\
      length answers = length pre /\
      (calls (run h (GetPublicKeysetHandle this) w) = lookups pre answers \/
       exists (k : Key) (rest : list Key) (s : Status),
         post = k :: rest /\
         calls (run h (GetPublicKeysetHandle this) w)
           = (lookups pre answers ++
              [Invoke (Registry_GetPublicKeyData (type_url (key_data k))
                         (value (key_data k))) (Failed s)])%list).
Proof.
  intros Aead KeysetReader KeysetWriter W h this w.
  rewrite run_GetPublicKeysetHandle. cbn [calls].
  destruct (for_each_key_lookups_only h (key (keyset_ this)) new_Keyset w)
    as [Hall Hlen].
  split; [| split; [exact Hlen |]].
  { apply Forall_forall. apply forallb_forall. exact Hall. }
  destruct (result (run h (for_each_key (key (keyset_ this)) new_Keyset) w))
    as [s | built] eqn:Hloop.
  - destruct (for_each_key_Failed h _ _ _ _ Hloop)
      as (pre & k & post & answers & Hkeys & _ & Hanswers & Hcase).
    exists pre, (k :: post), answers.
    split; [exact Hkeys | split; [exact Hanswers |]].
    destruct Hcase as [(_ & _ & Hcalls) | (_ & Hcalls)].
    + left. exact Hcalls.
    + right. exists k, post, s. split; [reflexivity | exact Hcalls].
  - destruct (for_each_key_Value h _ _ _ _ Hloop)
      as (answers & Hanswers & _ & Hcalls & _).
    exists (key (keyset_ this)), [], answers.
    split; [symmetry; apply app_nil_r | split; [exact Hanswers |]].
    left. exact Hcalls.
Qed.

(** X15. Deriving twice.  Let a derivation on a keyset with at least one
    entry succeed, with the registry's answers classified
    asymmetric-public.  Deriving again from the handle it returned fails
    with the INVALID_ARGUMENT of [ExtractPublicKey], under any
    collaborators, without a single lookup. *)
Theorem GetPublicKeysetHandle_twice_fails :
  forall (Aead KeysetReader KeysetWriter W W' : Type)
         (h : @handler Aead KeysetReader KeysetWriter W)
         (h' : @handler Aead KeysetReader KeysetWriter W')
         (this public_handle : KeysetHandle) (w : W) (w' : W'),
    fst (result (run h (GetPublicKeysetHandle this) w))
      = Value public_handle ->
    key (keyset_ this) <> [] ->
    Forall (fun k => key_material_type (key_data k) = ASYMMETRIC_PUBLIC)
           (key (keyset_ public_handle)) ->
    run h' (GetPublicKeysetHandle public_handle) w' =
    mkOutcome
      (Failed (mkStatus INVALID_ARGUMENT
                 "Key material is not of type KeyData::ASYMMETRIC_PRIVATE"),
       public_handle)
      w' [].
Proof.
  intros Aead KeysetReader KeysetWriter W W' h h' this public_handle w w'
         Hres Hne Hpub.
  destruct (GetPublicKeysetHandle_Value h _ _ _ Hres)
    as (answers & Hlen & _ & _ & Hshape).
  destruct (key (keyset_ this)) as [| k keys] eqn:Hkeys;
    [exfalso; apply Hne; reflexivity |].
  destruct answers as [| d answers]; [discriminate Hlen |].
  rewrite Hshape in Hpub |- *. cbn [keyset_ key derived combine map] in Hpub.
  apply Forall_inv in Hpub. cbn [fst snd] in Hpub.
  rewrite run_GetPublicKeysetHandle.
  cbn [keyset_ key derived combine map fst snd].
  rewrite run_for_each_key_cons.
  rewrite run_ExtractPublicKey_not_private.
  - reflexivity.
  - apply is_private_false. rewrite Hpub. discriminate.
Qed.

(** X16. A successful derivation keeps the key ids, in order, and the
    primary key id; so a primary key id that addressed an entry of the
    original keyset addresses an entry of the derived one, and key ids
    that were pairwise distinct stay so. *)
Theorem GetPublicKeysetHandle_keeps_primary_key_invariant :
  forall (Aead KeysetReader KeysetWriter W : Type)
         (h : @handler Aead KeysetReader KeysetWriter W)
         (this public_handle : KeysetHandle) (w : W),
    fst (result (run h (GetPublicKeysetHandle this) w))
      = Value public_handle ->
    (In (primary_key_id (keyset_ this))
        (map key_id (key (keyset_ this))) ->
     In (primary_key_id (keyset_ public_handle))
        (map key_id (key (keyset_ public_handle)))) /\
    (NoDup (map key_id (key (keyset_ this))) ->
     NoDup (map key_id (key (keyset_ public_handle)))).
Proof.
  intros Aead KeysetReader KeysetWriter W h this public_handle w Hres.
  destruct (GetPublicKeysetHandle_Value h _ _ _ Hres)
    as (answers & Hlen & _ & _ & Hshape).
  rewrite Hshape. cbn [keyset_ key primary_key_id].
  rewrite (derived_keeps Z key_id (fun k d => eq_refl) _ _ Hlen).
  split; intro H; exact H.
Qed.

(** ** GenerateNew *)

(** X17. [GenerateNew] fails exactly when [KeysetManager::New] fails, and
    then with the manager's status as it is and without running the
    manager's [GetKeysetHandle] (the world is as [New] left it); when
    [New] yields a manager, the result is the handle that manager's
    [GetKeysetHandle] gives. *)
Theorem GenerateNew_fails_as_the_manager_does :
  forall (KeyTemplate KeysetManager W : Type)
         (ops : @KeysetManagerOps KeyTemplate KeysetManager W)
         (key_template : KeyTemplate) (w : W) (s : Status),
    (fst (GenerateNew ops key_template w) = Failed s <->
     fst (KeysetManager_New ops key_template w) = Failed s) /\
    match fst (KeysetManager_New ops key_template w) with
    | Failed _ =>
        snd (GenerateNew ops key_template w)
          = snd (KeysetManager_New ops key_template w)
    | Value manager =>
        GenerateNew ops key_template w =
        (Value (fst (KeysetManager_GetKeysetHandle ops manager
                       (snd (KeysetManager_New ops key_template w)))),
         snd (KeysetManager_GetKeysetHandle ops manager
                (snd (KeysetManager_New ops key_template w))))
    end.
Proof.
  intros KeyTemplate KeysetManager W ops key_template w s.
  unfold GenerateNew.
  destruct (fst (KeysetManager_New ops key_template w)) as [e | manager];
    cbn [fst snd].
  - split; [| reflexivity].
    split; intro H; injection H as ->; reflexivity.
  - split; [| reflexivity]. split; intro H; discriminate H.
Qed.

(** ** Further concrete runs against the test doubles *)

(** Witness for X1: reading from the empty storage. *)
Lemma Read_reader_failure_witness :
  result (run (fake_handler honest) (@Read _ _ _ toy_codec tt tt)
            empty_storage)
    = Failed (mkStatus INVALID_ARGUMENT
                ("Error reading encrypted keyset data: "
                 ++ c_str "nothing stored")) /\
  calls (run (fake_handler honest) (@Read _ _ _ toy_codec tt tt)
           empty_storage)
    = [Invoke (ReadEncrypted tt)
         (Failed (mkStatus NOT_FOUND "nothing stored"))] /\
  count_calls is_Aead_call
    (calls (run (fake_handler honest) (@Read _ _ _ toy_codec tt tt)
              empty_storage)) = 0.
Proof.
  apply (@Read_reader_failure unit unit unit toy_codec _
           (fake_handler honest) tt tt empty_storage
           (mkStatus NOT_FOUND "nothing stored")).
  reflexivity.
Defined.

(** Witness for X2: a blob the toy AEAD rejects. *)
Lemma Read_failures_are_invalid_argument_witness :
  error_code
    (mkStatus INVALID_ARGUMENT
       "Error decrypting encrypted keyset: decryption failed")
    = INVALID_ARGUMENT.
Proof.
  apply (@Read_failures_are_invalid_argument unit unit unit toy_codec _
           (fake_handler honest) tt tt tampered_storage).
  reflexivity.
Defined.

(** Witness for X5: writing the sample keyset under an AEAD that cannot
    encrypt. *)
Lemma Write_encryption_failure_witness :
  fst (result (run (fake_handler sealing_refused)
                 (@Write _ _ _ toy_codec (Some tt) tt sample_handle)
                 empty_storage))
    = mkStatus INVALID_ARGUMENT
        ("Encryption of the keyset failed: " ++ c_str "no key material") /\
  calls (run (fake_handler sealing_refused)
           (@Write _ _ _ toy_codec (Some tt) tt sample_handle)
           empty_storage)
    = [Invoke (Aead_Encrypt tt (toy_serialize (keyset_ sample_handle)) "")
         (Failed (mkStatus INTERNAL "no key material"))] /\
  world (run (fake_handler sealing_refused)
           (@Write _ _ _ toy_codec (Some tt) tt sample_handle)
           empty_storage)
    = empty_storage.
Proof.
  apply (@Write_encryption_failure unit unit unit toy_codec _
           (fake_handler sealing_refused) tt tt sample_handle empty_storage
           (mkStatus INTERNAL "no key material")).
  reflexivity.
Defined.

(** Witness for X9: a symmetric entry. *)
Lemma ExtractPublicKey_rejects_non_private_witness :
  run (fake_handler honest) (ExtractPublicKey symmetric_key_5) empty_storage
  = mkOutcome
      (Failed (mkStatus INVALID_ARGUMENT
                 "Key material is not of type KeyData::ASYMMETRIC_PRIVATE"))
      empty_storage [].
Proof.
  apply (@ExtractPublicKey_rejects_non_private unit unit unit _
           (fake_handler honest) symmetric_key_5 empty_storage).
  discriminate.
Defined.

(** Witness for X10: a private entry of a type the registry does not
    know. *)
Lemma ExtractPublicKey_passes_registry_failure_on_witness :
  result (run (fake_handler honest) (ExtractPublicKey unregistered_key_3)
            empty_storage)
    = Failed (mkStatus NOT_FOUND "No manager for this key type") /\
  calls (run (fake_handler honest) (ExtractPublicKey unregistered_key_3)
           empty_storage)
    = [Invoke (Registry_GetPublicKeyData "type.example/Unregistered"
                 "secret-3")
         (Failed (mkStatus NOT_FOUND "No manager for this key type"))].
Proof.
  apply (@ExtractPublicKey_passes_registry_failure_on unit unit unit _
           (fake_handler honest) unregistered_key_3 empty_storage
           (mkStatus NOT_FOUND "No manager for this key type")).
  - reflexivity.
  - reflexivity.
Defined.

(** Witness for X12: a derivable private entry followed by a symmetric
    one. *)
Lemma GetPublicKeysetHandle_failure_anatomy_witness :
  exists (pre : list Key) (k : Key) (post : list Key)
         (answers : list KeyData),
    key (keyset_ mixed_handle) = (pre ++ k :: post)%list /\
    Forall (fun e => key_material_type (key_data e) = ASYMMETRIC_PRIVATE)
           pre /\
    length answers = length pre /\
    ((key_material_type (key_data k) <> ASYMMETRIC_PRIVATE /\
      mkStatus INVALID_ARGUMENT not_private_message
        = mkStatus INVALID_ARGUMENT
            "Key material is not of type KeyData::ASYMMETRIC_PRIVATE" /\
      calls (run (fake_handler honest) (GetPublicKeysetHandle mixed_handle)
               empty_storage) = lookups pre answers)
     \/
     (key_material_type (key_data k) = ASYMMETRIC_PRIVATE /\
      calls (run (fake_handler honest) (GetPublicKeysetHandle mixed_handle)
               empty_storage)
        = (lookups pre answers ++
           [Invoke (Registry_GetPublicKeyData (type_url (key_data k))
                      (value (key_data k)))
              (Failed (mkStatus INVALID_ARGUMENT not_private_message))])%list)).
Proof.
  apply (@GetPublicKeysetHandle_failure_anatomy unit unit unit _
           (fake_handler honest) mixed_handle empty_storage
           (mkStatus INVALID_ARGUMENT not_private_message)).
  reflexivity.
Defined.

(** Witness for X13: the sample keyset against the registry that knows
    its key type. *)
Lemma GetPublicKeysetHandle_success_only_if_witness :
  Forall (fun k => key_material_type (key_data k) = ASYMMETRIC_PRIVATE)
         (key (keyset_ sample_handle)) /\
  Forall (fun i => lookup_succeeded i = true)
         (calls (run (fake_handler honest)
                   (GetPublicKeysetHandle sample_handle) empty_storage)) /\
  Forall (fun i => is_Registry_lookup i = true)
         (calls (run (fake_handler honest)
                   (GetPublicKeysetHandle sample_handle) empty_storage)) /\
  length (calls (run (fake_handler honest)
                   (GetPublicKeysetHandle sample_handle) empty_storage))
    = length (key (keyset_ sample_handle)) /\
  exists answers : list KeyData,
    length answers = length (key (keyset_ sample_handle)) /\
    calls (run (fake_handler honest)
             (GetPublicKeysetHandle sample_handle) empty_storage)
      = lookups (key (keyset_ sample_handle)) answers.
Proof.
  apply (@GetPublicKeysetHandle_success_only_if unit unit unit _
           (fake_handler honest) sample_handle sample_public_handle
           empty_storage).
  reflexivity.
Defined.

(** Witness for X15: deriving from the derived sample keyset, against the
    same registry. *)
Lemma GetPublicKeysetHandle_twice_fails_witness :
  run (fake_handler honest) (GetPublicKeysetHandle sample_public_handle)
      empty_storage
  = mkOutcome
      (Failed (mkStatus INVALID_ARGUMENT
                 "Key material is not of type KeyData::ASYMMETRIC_PRIVATE"),
       sample_public_handle)
      empty_storage [].
Proof.
  apply (@GetPublicKeysetHandle_twice_fails unit unit unit _ _
           (fake_handler honest) (fake_handler honest)
           sample_handle sample_public_handle empty_storage empty_storage).
  - reflexivity.
  - discriminate.
  - repeat constructor.
Defined.

(** Witness for X16: the sample keyset, whose primary key id 9 is the id
    of its second entry. *)
Lemma GetPublicKeysetHandle_keeps_primary_key_invariant_witness :
  (In (primary_key_id (keyset_ sample_handle))
      (map key_id (key (keyset_ sample_handle))) ->
   In (primary_key_id (keyset_ sample_public_handle))
      (map key_id (key (keyset_ sample_public_handle)))) /\
  (NoDup (map key_id (key (keyset_ sample_handle))) ->
   NoDup (map key_id (key (keyset_ sample_public_handle)))).
Proof.
  apply (@GetPublicKeysetHandle_keeps_primary_key_invariant unit unit unit _
           (fake_handler honest) sample_handle sample_public_handle
           empty_storage).
  reflexivity.
Defined.

(** Reading back a well-sealed sample keyset. *)
Example Read_sealed_sample :
  result (run (fake_handler honest) (@Read _ _ _ toy_codec tt tt)
            sealed_sample_storage)
  = Value sample_handle.
Proof. reflexivity. Qed.

(** Generating from a template the toy key manager knows, and from one it
    does not. *)
Example GenerateNew_toy_manager :
  GenerateNew toy_manager_ops "ECDSA_P256" 0 = (Value sample_handle, 1) /\
  GenerateNew toy_manager_ops "AES_GCM_SIV" 0
    = (Failed (mkStatus INVALID_ARGUMENT "unsupported key template"), 0).
Proof. split; reflexivity. Qed.
